(** * The Tecton MCP services wrapper (tecton_mcp_wrapper.py)

    A shallow embedding of the process supervisor: the PID store
    (load_pids, save_pids, cleanup_stale_pids), the liveness check, the
    single-service operations (start_service, stop_service, restart), the
    batched ones (start_all, stop_all, restart_all), status and the command
    routing of main.

    The controller is a sequence of effects on the operating system: it
    reads and writes one file, probes and signals processes, spawns children
    and sleeps.  The embedding threads an explicit [World] through every
    function, in a small state monad; [os.kill], which raises, lives in the
    same monad with a sum for its outcome. *)

From Stdlib Require Import String Ascii ZArith List Bool Arith Lia.
Import ListNotations.
Open Scope string_scope.
Open Scope list_scope.
Open Scope Z_scope.

(** ** Python dictionaries, in insertion order *)

Module PyDict.

Definition dict := list (string * Z).

Fixpoint get (k : string) (d : dict) : option Z :=
  match d with
  | [] => None
  | (k', v) :: d' => if String.eqb k k' then Some v else get k d'
  end.

Definition mem (k : string) (d : dict) : bool :=
  match get k d with Some _ => true | None => false end.

(** [d[k] = v]: an existing key keeps its position. *)
Fixpoint set (k : string) (v : Z) (d : dict) : dict :=
  match d with
  | [] => [(k, v)]
  | (k', v') :: d' =>
      if String.eqb k k' then (k, v) :: d' else (k', v') :: set k v d'
  end.

(** [del d[k]] *)
Fixpoint del (k : string) (d : dict) : dict :=
  match d with
  | [] => []
  | (k', v') :: d' => if String.eqb k k' then d' else (k', v') :: del k d'
  end.

Definition keys (d : dict) : list string := map fst d.

(** What [json.load] builds from the members of a JSON object, read in
    file order: a repeated name overwrites the earlier value. *)
Definition of_items (items : list (string * Z)) : dict :=
  fold_left (fun d kv => set (fst kv) (snd kv) d) items [].

End PyDict.

Import PyDict.

(** ** The operating system as the controller sees it *)

Inductive signal := SIGHUP | SIGTERM.

(** A running process.  [may_signal] is false for a process the controller
    may not signal (os.kill raises PermissionError).  [on_hup] and
    [on_term] say how the process reacts to a delivered signal: [None]
    ignores it, [Some d] exits [d] seconds later ([Some 0]: at once).
    [exits_in] is [Some k] for a process that exits on its own within [k]
    more seconds. *)
Record Proc := mkProc {
  may_signal : bool;
  on_hup : option nat;
  on_term : option nat;
  exits_in : option nat
}.

(** A server script on disk: the process it becomes when launched and what
    that process has written to stderr by the time it exits. *)
Record Program := mkProgram {
  prog_proc : Proc;
  prog_stderr : string
}.

(** The PID file: absent, present but unreadable (open raises IOError),
    present but not JSON (json.load raises JSONDecodeError), or a JSON
    object whose members are the listed name/pid pairs, in file order.
    These are the cases load_pids tells apart, and the only ones this
    development speaks of.  A file that is not text in the default
    encoding makes json.load raise UnicodeDecodeError, which load_pids
    does not catch; a file whose JSON value is not an object of integers
    is returned by load_pids as it is and makes the loop of
    cleanup_stale_pids raise.  In both cases the controller ends with an
    exception before it does anything; such files are not in this type,
    and no theorem below is about them. *)
Inductive FileState :=
| Missing
| Unreadable
| Garbled
| Holds (items : list (string * Z)).

(** What happens when the PID file is opened for writing: the write goes
    through, [open] raises IOError (the file is untouched), or [open]
    truncates the file and the write then raises IOError. *)
Inductive DiskState := DiskOk | DiskOpenFails | DiskWriteFails.

(** Every [print] of the wrapper, one constructor per statement. *)
Inductive Msg :=
| MsgUnknownService (service : string)
| MsgAvailable (services : list string)
| MsgScriptNotFound (service : string)
| MsgCorruptedPidFile
| MsgSaveFailed
| MsgCleaningStale (service : string)
| MsgAlreadyRunning (service : string) (pid : Z)
| MsgStarting (service : string)
| MsgStarted (service : string) (pid : Z)
| MsgFailedToStart (service : string)
| MsgError (stderr : string)
| MsgStartException (service : string) (e : string)
| MsgNotRunning (service : string)
| MsgForcing (service : string)
| MsgStopped (graceful : bool) (service : string) (pid : Z)
| MsgPidNotFound (service : string) (pid : Z)
| MsgStopFailed (service : string)
| MsgStartingAll (services : list string)
| MsgStartedCount (n total : nat)
| MsgNoServicesRunning
| MsgStoppingAll (services : list string)
| MsgStoppedCount (n total : nat)
| MsgStatusHeader
| MsgRunningHeader
| MsgStatusRow (service : string) (pid : Z)
| MsgNotRunningList (services : list string)
| MsgRestarting (service : string)
| MsgRestartingAll
| MsgSpecify (cmd : string)
| MsgUnknownCommand (cmd : string)
| MsgUsage.

(** What the controller does to the world, in the order it does it. *)
Inductive Event :=
| Printed (m : Msg)
| Signalled (pid : Z) (sig : signal)
| Wrote (d : dict)
| Truncated
| Spawned (service : string) (pid : Z)
| Slept (seconds : nat).

(** The process table is the map from a pid to the process it names. *)
Definition Table := Z -> option Proc.

Record World := mkWorld {
  pid_file : FileState;
  disk : DiskState;
  scripts : list (string * Program);
  psutil_ok : bool;
  procs : Table;
  popen_error : option string;
  pid_supply : list Z;
  trace : list Event
}.

Definition with_file (f : FileState) (w : World) : World :=
  mkWorld f (disk w) (scripts w) (psutil_ok w) (procs w)
          (popen_error w) (pid_supply w) (trace w).

Definition with_procs (ps : Table) (w : World) : World :=
  mkWorld (pid_file w) (disk w) (scripts w) (psutil_ok w) ps
          (popen_error w) (pid_supply w) (trace w).

Definition with_supply (s : list Z) (w : World) : World :=
  mkWorld (pid_file w) (disk w) (scripts w) (psutil_ok w) (procs w)
          (popen_error w) s (trace w).

Definition emit (e : Event) (w : World) : World :=
  mkWorld (pid_file w) (disk w) (scripts w) (psutil_ok w) (procs w)
          (popen_error w) (pid_supply w) (trace w ++ [e]).

(** ** The monad *)

Definition M (A : Type) : Type := World -> A * World.

Definition ret {A} (a : A) : M A := fun w => (a, w).

Definition bind {A B} (m : M A) (f : A -> M B) : M B :=
  fun w => let (a, w') := m w in f a w'.

Declare Scope py_scope.
Delimit Scope py_scope with py.
Notation "x <- m ;; k" := (bind m (fun x => k))
  (at level 61, m at next level, right associativity) : py_scope.
Notation "m ;; k" := (bind m (fun _ => k))
  (at level 61, right associativity) : py_scope.
Open Scope py_scope.

Definition print (m : Msg) : M unit := fun w => (tt, emit (Printed m) w).

(** Exceptions of [os.kill] that the wrapper tells apart: the first has a
    handler of its own, the second falls to [except Exception]. *)
Inductive exn := ProcessLookupError | PermissionError.

(** A statement of a [try] block: it raises or it yields a value. *)
Definition T (A : Type) : Type := M (exn + A).

Definition lift {A} (m : M A) : T A := fun w => let (a, w') := m w in (inr a, w').

Definition bindT {A B} (m : T A) (f : A -> T B) : T B :=
  fun w => match m w with
           | (inl e, w') => (inl e, w')
           | (inr a, w') => f a w'
           end.

Notation "x <~ m ;; k" := (bindT m (fun x => k))
  (at level 61, m at next level, right associativity) : py_scope.

(** ** Processes *)

Definition alive (w : World) (pid : Z) : bool :=
  match procs w pid with Some _ => true | None => false end.

Definition sooner (d : nat) (e : option nat) : option nat :=
  match e with
  | None => Some d
  | Some k => Some (Nat.min d k)
  end.

Definition reaction (sig : signal) (pr : Proc) : option nat :=
  match sig with SIGHUP => on_hup pr | SIGTERM => on_term pr end.

(** A delivered signal schedules the exit the process reacts with. *)
Definition hit (sig : signal) (pr : Proc) : Proc :=
  match reaction sig pr with
  | None => pr
  | Some d => mkProc (may_signal pr) (on_hup pr) (on_term pr)
                     (sooner d (exits_in pr))
  end.

Definition age (n : nat) (pr : Proc) : Proc :=
  match exits_in pr with
  | None => pr
  | Some k => mkProc (may_signal pr) (on_hup pr) (on_term pr) (Some (k - n)%nat)
  end.

(** A process whose time is up leaves the table. *)
Definition settle (pr : Proc) : option Proc :=
  match exits_in pr with Some O => None | _ => Some pr end.

Definition deliver (pid : Z) (sig : signal) (ps : Table) : Table :=
  fun p =>
    if Z.eqb p pid
    then match ps p with Some pr => settle (hit sig pr) | None => None end
    else ps p.

Definition elapse (n : nat) (ps : Table) : Table :=
  fun p => match ps p with Some pr => settle (age n pr) | None => None end.

(** [os.kill(pid, sig)] *)
Definition os_kill (pid : Z) (sig : signal) : T unit :=
  fun w =>
    match procs w pid with
    | None => (inl ProcessLookupError, w)
    | Some pr =>
        if may_signal pr
        then (inr tt, emit (Signalled pid sig) (with_procs (deliver pid sig (procs w)) w))
        else (inl PermissionError, w)
    end.

(** [os.kill(pid, 0)]: the probe of the fallback path, no signal is sent.
    As for [alive], the pid is the pid of a record, a positive integer in
    the range of the system's pids: the answers of [os.kill] and of psutil
    for zero, for a negative number (a process group) or for a number too
    large for a pid are not what this table gives. *)
Definition os_kill0 (pid : Z) (w : World) : exn + unit :=
  match procs w pid with
  | None => inl ProcessLookupError
  | Some pr => if may_signal pr then inr tt else inl PermissionError
  end.

(** [time.sleep(n)]: the processes that were due within [n] seconds are gone. *)
Definition time_sleep (n : nat) : M unit :=
  fun w => (tt, emit (Slept n) (with_procs (elapse n (procs w)) w)).

(** ** The wrapper *)

Definition SERVICES : list string := ["jira"; "chronosphere"; "linear"; "observe"].

Definition in_list (s : string) (l : list string) : bool :=
  existsb (String.eqb s) l.

Fixpoint find_script (s : string) (l : list (string * Program)) : option Program :=
  match l with
  | [] => None
  | (k, p) :: l' => if String.eqb s k then Some p else find_script s l'
  end.

(** [get_server_path(service).exists()] *)
Definition server_path_exists (service : string) (w : World) : bool :=
  match find_script service (scripts w) with Some _ => true | None => false end.

Definition validate_service (service : string) : M bool :=
  if negb (in_list service SERVICES) then
    print (MsgUnknownService service) ;;
    print (MsgAvailable SERVICES) ;;
    ret false
  else
    ok <- (fun w => (server_path_exists service w, w)) ;;
    if negb ok then
      print (MsgScriptNotFound service) ;;
      ret false
    else ret true.

Definition load_pids : M dict :=
  fun w =>
    match pid_file w with
    | Missing => ([], w)
    | Unreadable | Garbled => ([], emit (Printed MsgCorruptedPidFile) w)
    | Holds items => (of_items items, w)
    end.

Definition save_pids (pids : dict) : M unit :=
  fun w =>
    match disk w with
    | DiskOk => (tt, emit (Wrote pids) (with_file (Holds pids) w))
    | DiskOpenFails => (tt, emit (Printed MsgSaveFailed) w)
    | DiskWriteFails =>
        (tt, emit (Printed MsgSaveFailed) (emit Truncated (with_file Garbled w)))
    end.

Definition is_process_running (pid : Z) : M bool :=
  fun w =>
    if psutil_ok w then (alive w pid, w)
    else match os_kill0 pid w with
         | inr _ => (true, w)
         | inl ProcessLookupError => (false, w)
         | inl PermissionError => (true, w)
         end.

(** The first loop of cleanup_stale_pids. *)
Fixpoint collect_stale (items : list (string * Z)) : M (list string) :=
  match items with
  | [] => ret []
  | (service, pid) :: rest =>
      running <- is_process_running pid ;;
      stale <- collect_stale rest ;;
      ret (if negb running then service :: stale else stale)
  end.

(** The second loop. *)
Fixpoint drop_stale (stale : list string) (pids : dict) : M dict :=
  match stale with
  | [] => ret pids
  | service :: rest =>
      print (MsgCleaningStale service) ;;
      drop_stale rest (del service pids)
  end.

Definition cleanup_stale_pids : M dict :=
  pids <- load_pids ;;
  stale_services <- collect_stale pids ;;
  pids <- drop_stale stale_services pids ;;
  (match stale_services with
   | [] => ret tt
   | _ :: _ => save_pids pids
   end) ;;
  ret pids.

(** The handle [subprocess.Popen] returns: the child's pid, and what the
    child leaves on its stderr pipe for [communicate]. *)
Record Handle := mkHandle {
  handle_pid : Z;
  handle_stderr : string
}.

Definition crashed_at_once : Program :=
  mkProgram (mkProc true (Some O) (Some O) (Some O)) "can't open file".

(** [subprocess.Popen([PYTHON_PATH, server_path], ...)]: raises when the
    interpreter cannot be launched or the system has no pid to give;
    otherwise the child enters the process table under the next pid. *)
Definition popen (service : string) : M (string + Handle) :=
  fun w =>
    match popen_error w with
    | Some e => (inl e, w)
    | None =>
        match pid_supply w with
        | [] => (inl "Resource temporarily unavailable", w)
        | pid :: supply =>
            let prog := match find_script service (scripts w) with
                        | Some p => p
                        | None => crashed_at_once
                        end in
            let table := fun p => if Z.eqb p pid then Some (prog_proc prog)
                                  else procs w p in
            (inr (mkHandle pid (prog_stderr prog)),
             emit (Spawned service pid) (with_supply supply (with_procs table w)))
        end
    end.

(** [proc.poll() is None] *)
Definition still_running (proc : Handle) : M bool :=
  fun w => (alive w (handle_pid proc), w).

Definition nonempty (s : string) : bool :=
  match s with EmptyString => false | _ => true end.

(** start_service from [print("Starting ...")] on, with the mapping the
    new record goes into. *)
Definition launch (service : string) (pids : dict) : M bool :=
  print (MsgStarting service) ;;
  r <- popen service ;;
  match r with
  | inl e =>
      print (MsgStartException service e) ;;
      ret false
  | inr proc =>
      time_sleep 1 ;;
      running <- still_running proc ;;
      if running then
        let pids := set service (handle_pid proc) pids in
        save_pids pids ;;
        print (MsgStarted service (handle_pid proc)) ;;
        ret true
      else
        print (MsgFailedToStart service) ;;
        (if nonempty (handle_stderr proc)
         then print (MsgError (handle_stderr proc))
         else ret tt) ;;
        ret false
  end.

(** start_service after [pids = cleanup_stale_pids()]. *)
Definition start_with (service : string) (pids : dict) : M bool :=
  match get service pids with
  | Some pid =>
      running <- is_process_running pid ;;
      if running then
        print (MsgAlreadyRunning service pid) ;;
        ret true
      else launch service (del service pids)
  | None => launch service pids
  end.

Definition start_service (service : string) : M bool :=
  ok <- validate_service service ;;
  if negb ok then ret false
  else
    pids <- cleanup_stale_pids ;;
    start_with service pids.

(** The [try] block of stop_service. *)
Definition stop_try (service : string) (graceful : bool) (pid : Z) (pids : dict)
  : T bool :=
  _ <~ os_kill pid (if graceful then SIGHUP else SIGTERM) ;;
  _ <~ (if graceful then
          _ <~ lift (time_sleep 2) ;;
          running <~ lift (is_process_running pid) ;;
          if running then
            _ <~ lift (print (MsgForcing service)) ;;
            os_kill pid SIGTERM
          else lift (ret tt)
        else lift (ret tt)) ;;
  _ <~ lift (save_pids pids) ;;
  _ <~ lift (print (MsgStopped graceful service pid)) ;;
  lift (ret true).

(** stop_service after [pids = cleanup_stale_pids()]. *)
Definition stop_with (service : string) (graceful : bool) (pids : dict) : M bool :=
  match get service pids with
  | None =>
      print (MsgNotRunning service) ;;
      ret true
  | Some pid =>
      let pids := del service pids in
      r <- stop_try service graceful pid pids ;;
      match r with
      | inr b => ret b
      | inl ProcessLookupError =>
          print (MsgPidNotFound service pid) ;;
          save_pids pids ;;
          ret true
      | inl PermissionError =>
          print (MsgStopFailed service) ;;
          ret false
      end
  end.

Definition stop_service (service : string) (graceful : bool) : M bool :=
  pids <- cleanup_stale_pids ;;
  stop_with service graceful pids.

(** [for service in ...: if op(service): success_count += 1] *)
Fixpoint count_successes (op : string -> M bool) (services : list string)
                         (success_count : nat) : M nat :=
  match services with
  | [] => ret success_count
  | service :: rest =>
      ok <- op service ;;
      count_successes op rest (if ok then S success_count else success_count)
  end.

Definition start_all : M bool :=
  print (MsgStartingAll SERVICES) ;;
  success_count <- count_successes start_service SERVICES O ;;
  print (MsgStartedCount success_count (length SERVICES)) ;;
  ret (Nat.eqb success_count (length SERVICES)).

Definition stop_all (graceful : bool) : M bool :=
  pids <- cleanup_stale_pids ;;
  match pids with
  | [] =>
      print MsgNoServicesRunning ;;
      ret true
  | _ :: _ =>
      print (MsgStoppingAll (keys pids)) ;;
      success_count <-
        count_successes (fun service => stop_service service graceful) (keys pids) O ;;
      print (MsgStoppedCount success_count (length pids)) ;;
      ret (Nat.eqb success_count (length pids))
  end.

Fixpoint print_rows (items : list (string * Z)) : M unit :=
  match items with
  | [] => ret tt
  | (service, pid) :: rest =>
      print (MsgStatusRow service pid) ;;
      print_rows rest
  end.

(** The resource figures of a row (CPU, memory) are annotations of the
    printed line; a row is printed with or without them. *)
Definition status : M unit :=
  pids <- cleanup_stale_pids ;;
  print MsgStatusHeader ;;
  match pids with
  | [] =>
      print MsgNoServicesRunning ;;
      print (MsgAvailable SERVICES)
  | _ :: _ =>
      print MsgRunningHeader ;;
      print_rows pids ;;
      let not_running := filter (fun s => negb (mem s pids)) SERVICES in
      match not_running with
      | [] => ret tt
      | _ :: _ => print (MsgNotRunningList not_running)
      end
  end.

Definition restart (service : string) (graceful : bool) : M bool :=
  print (MsgRestarting service) ;;
  stop_service service graceful ;;
  time_sleep 1 ;;
  start_service service.

Definition restart_all (graceful : bool) : M bool :=
  print MsgRestartingAll ;;
  stop_all graceful ;;
  time_sleep 2 ;;
  start_all.

(** One branch of the command routing of main: [on_all] for the target
    "all", [on_one] for a registered service. *)
Definition route (cmd : string) (target : option string)
                 (on_all : M bool) (on_one : string -> M bool) : M bool :=
  match target with
  | Some t =>
      if String.eqb t "all" then on_all
      else if nonempty t && in_list t SERVICES then on_one t
      else if nonempty t then
        print (MsgUnknownService t) ;;
        ret false
      else
        print (MsgSpecify cmd) ;;
        ret false
  | None =>
      print (MsgSpecify cmd) ;;
      ret false
  end.

(** main from the command routing on: [cmd] is [sys.argv[1].lower()],
    [target] is [sys.argv[2].lower()] or None.  The result is the exit
    code. *)
Definition main_route (cmd : string) (target : option string) : M Z :=
  success <-
    (if String.eqb cmd "start" then
       route cmd target start_all start_service
     else if String.eqb cmd "stop" then
       route cmd target (stop_all false) (fun t => stop_service t false)
     else if String.eqb cmd "restart" then
       route cmd target (restart_all false) (fun t => restart t false)
     else if String.eqb cmd "status" then
       status ;;
       ret true
     else if String.eqb cmd "graceful" then
       route cmd target (restart_all true) (fun t => restart t true)
     else
       print (MsgUnknownCommand cmd) ;;
       print MsgUsage ;;
       ret false) ;;
  ret (if success then 0 else 1).

(** ** Observations on a world *)

Definition is_write (e : Event) : bool :=
  match e with Wrote _ | Truncated => true | _ => false end.

Definition is_signal (e : Event) : bool :=
  match e with Signalled _ _ => true | _ => false end.

(** The writes to the PID file, the signals sent. *)
Definition writes (w : World) : list Event := filter is_write (trace w).
Definition signals (w : World) : list Event := filter is_signal (trace w).

(** The mapping an invocation that starts in [w] would load. *)
Definition stored (w : World) : dict := fst (load_pids w).

(** [tracked w s] is the pid recorded for [s] in the durable store. *)
Definition tracked (w : World) (service : string) : option Z := get service (stored w).

Definition live_entries (w : World) (d : dict) : dict :=
  filter (fun kv => alive w (snd kv)) d.

Definition stale_entries (w : World) (d : dict) : dict :=
  filter (fun kv => negb (alive w (snd kv))) d.

Definition announce (stale : list string) (w : World) : World :=
  fold_left (fun w s => emit (Printed (MsgCleaningStale s)) w) stale w.

(** [store_untouched w w']: between [w] and [w'] the PID file was not
    written, no signal was sent, no process started or ended. *)
Definition store_untouched (w w' : World) : Prop :=
  pid_file w' = pid_file w /\ writes w' = writes w /\ signals w' = signals w
  /\ procs w' = procs w /\ pid_supply w' = pid_supply w.

(** ** Two invocations at once *)

(** start_service in two halves: up to the cleanup, which loads the store
    ([None] when the service is refused), and from there on, which saves
    it.  Between the two the mapping is in the memory of the invocation. *)
Definition start_load (service : string) : M (option dict) :=
  ok <- validate_service service ;;
  if negb ok then ret None
  else
    pids <- cleanup_stale_pids ;;
    ret (Some pids).

Definition start_finish (service : string) (loaded : option dict) : M bool :=
  match loaded with
  | None => ret false
  | Some pids => start_with service pids
  end.


(** ** Batches, as the specification words them *)

(** Apply [op] to each service in turn, each in the world the one before
    left, whatever the outcomes; the outcomes, in order. *)
Fixpoint run_each (op : string -> M bool) (services : list string) : M (list bool) :=
  match services with
  | [] => ret []
  | service :: rest =>
      ok <- op service ;;
      oks <- run_each op rest ;;
      ret (ok :: oks)
  end.

Definition count_true (oks : list bool) : nat := length (filter id oks).

(** The batch of the specification: the single-service operation applied
    to each service of the registry, in the order of the registry; success
    when every one succeeded. *)
Definition batch_over_registry (op : string -> M bool) : M bool :=
  oks <- run_each op SERVICES ;;
  ret (Nat.eqb (count_true oks) (length SERVICES)).

(** ** A store that cannot be read, against an empty one *)

Definition unusable (f : FileState) : bool :=
  match f with Holds _ => false | _ => true end.

Definition present (f : FileState) : bool :=
  match f with Missing => false | _ => true end.

(** A PID file read as the empty mapping is taken for a file that holds it. *)
Definition heal (f : FileState) : FileState :=
  match f with Holds items => Holds items | _ => Holds [] end.

Definition is_corruption_warning (e : Event) : bool :=
  match e with Printed MsgCorruptedPidFile => true | _ => false end.

(** The trace without the warnings of load_pids. *)
Definition quiet (tr : list Event) : list Event :=
  filter (fun e => negb (is_corruption_warning e)) tr.

(** Two worlds are alike when they differ at most in how the PID file
    fails to be read, and in the warnings printed about it. *)
Definition alike (w1 w2 : World) : Prop :=
  heal (pid_file w1) = heal (pid_file w2)
  /\ disk w1 = disk w2 /\ scripts w1 = scripts w2 /\ psutil_ok w1 = psutil_ok w2
  /\ procs w1 = procs w2 /\ popen_error w1 = popen_error w2
  /\ pid_supply w1 = pid_supply w2
  /\ quiet (trace w1) = quiet (trace w2).

(** A computation proceeds alike in worlds that are alike. *)
Definition respects {A} (m : M A) : Prop :=
  forall w1 w2, alike w1 w2 ->
    fst (m w1) = fst (m w2) /\ alike (snd (m w1)) (snd (m w2)).

(** ** Sample worlds *)

(** A server that exits at once on either signal; one that ignores SIGHUP;
    one that belongs to another user; one that exits within a second of
    its launch. *)
Definition server : Proc := mkProc true (Some O) (Some O) None.
Definition stubborn : Proc := mkProc true None (Some O) None.
Definition foreign : Proc := mkProc false (Some O) (Some O) None.
Definition crasher : Proc := mkProc true (Some O) (Some O) (Some 1%nat).

Fixpoint table (l : list (Z * Proc)) : Table :=
  fun p =>
    match l with
    | [] => None
    | (q, pr) :: l' => if Z.eqb p q then Some pr else table l' p
    end.

Definition installed : list (string * Program) :=
  map (fun s => (s, mkProgram server "")) SERVICES.

Definition sample (file : FileState) (running : list (Z * Proc)) : World :=
  mkWorld file DiskOk installed true (table running) None [4312; 4313; 4314; 4315] [].

Definition with_disk (d : DiskState) (w : World) : World :=
  mkWorld (pid_file w) d (scripts w) (psutil_ok w) (procs w)
          (popen_error w) (pid_supply w) (trace w).

Definition with_scripts (l : list (string * Program)) (w : World) : World :=
  mkWorld (pid_file w) (disk w) l (psutil_ok w) (procs w)
          (popen_error w) (pid_supply w) (trace w).

(** The jira script fails on import. *)
Definition broken : list (string * Program) :=
  [("jira", mkProgram crasher "ModuleNotFoundError")].

(** ** The entry point *)

Section Main.

(** [str.lower] of the Python runtime. *)
Variable lower : string -> string.

(** main: [argv] is [sys.argv], the name of the script first.  The result
    is the code the process exits with. *)
Definition main (argv : list string) : M Z :=
  match argv with
  | [] | [_] =>
      print MsgUsage ;;
      ret 1
  | _ :: cmd :: rest =>
      main_route (lower cmd)
                 (match rest with [] => None | target :: _ => Some (lower target) end)
  end.

End Main.

(** ** What a computation keeps *)

(** [keeps P m]: when [P] holds of the world before [m], it holds after. *)
Definition keeps {A} (P : World -> Prop) (m : M A) : Prop :=
  forall w, P w -> P (snd (m w)).

(** Every running process is one the controller may signal. *)
Definition all_signalable (w : World) : Prop :=
  forall p pr, procs w p = Some pr -> may_signal pr = true.

Definition is_row (e : Event) : bool :=
  match e with Printed (MsgStatusRow _ _) => true | _ => false end.

(** The rows of the status table that were printed. *)
Definition rows (w : World) : list Event := filter is_row (trace w).

(** [no_new_process w w']: from [w] to [w'] no pid was taken from the
    system and no process came to life. *)
Definition no_new_process (w w' : World) : Prop :=
  pid_supply w' = pid_supply w
  /\ forall p, alive w' p = true -> alive w p = true.

Definition status_row (kv : string * Z) : Event :=
  Printed (MsgStatusRow (fst kv) (snd kv)).

(** ** Dictionaries: keys stay unique *)

Section DictFacts.

Lemma keys_set_in k v d x :
  In x (keys (set k v d)) -> x = k \/ In x (keys d).
Proof.
  induction d as [|[k' v'] d IH]; simpl.
  - intros [->|[]]; auto.
  - destruct (String.eqb k k') eqn:E; simpl.
    + apply String.eqb_eq in E; subst. intros [->|H]; auto.
    + intros [->|H]; auto. destruct (IH H); auto.
Qed.

Lemma set_nodup k v d : NoDup (keys d) -> NoDup (keys (set k v d)).
Proof.
  induction d as [|[k' v'] d IH]; simpl; intros H.
  - constructor; [intros []|constructor].
  - inversion H as [|? ? Hn Hd]; subst.
    destruct (String.eqb k k') eqn:E; simpl.
    + apply String.eqb_eq in E; subst. constructor; assumption.
    + constructor; [|auto].
      intros Hin. apply keys_set_in in Hin as [->|Hin]; [|contradiction].
      rewrite String.eqb_refl in E. discriminate.
Qed.

Lemma of_items_nodup items : NoDup (keys (of_items items)).
Proof.
  unfold of_items.
  assert (G : forall d, NoDup (keys d) ->
              NoDup (keys (fold_left (fun d kv => set (fst kv) (snd kv) d) items d))).
  { induction items as [|kv items IH]; simpl; intros d Hd; [assumption|].
    apply IH, set_nodup, Hd. }
  apply G. constructor.
Qed.

Lemma get_not_in_keys k d : ~ In k (keys d) -> get k d = None.
Proof.
  induction d as [|[k' v'] d IH]; simpl; [reflexivity|].
  intros H. destruct (String.eqb k k') eqn:E.
  - apply String.eqb_eq in E; subst. exfalso; auto.
  - apply IH. auto.
Qed.

Lemma keys_del_in k d x : In x (keys (del k d)) -> In x (keys d).
Proof.
  induction d as [|[k' v'] d IH]; simpl; [auto|].
  destruct (String.eqb k k'); simpl; intuition.
Qed.

Lemma del_nodup k d : NoDup (keys d) -> NoDup (keys (del k d)).
Proof.
  induction d as [|[k' v'] d IH]; simpl; intros H; [assumption|].
  inversion H as [|? ? Hn Hd]; subst.
  destruct (String.eqb k k'); [assumption|].
  simpl. constructor; [|auto]. intros Hin. apply Hn. eapply keys_del_in, Hin.
Qed.

Lemma get_del_same k d : NoDup (keys d) -> get k (del k d) = None.
Proof.
  induction d as [|[k' v'] d IH]; simpl; intros H; [reflexivity|].
  inversion H as [|? ? Hn Hd]; subst.
  destruct (String.eqb k k') eqn:E.
  - apply String.eqb_eq in E; subst. apply get_not_in_keys, Hn.
  - simpl. rewrite E. auto.
Qed.

Lemma get_set_same k v d : get k (set k v d) = Some v.
Proof.
  induction d as [|[k' v'] d IH]; simpl.
  - now rewrite String.eqb_refl.
  - destruct (String.eqb k k') eqn:E; simpl.
    + now rewrite String.eqb_refl.
    + now rewrite E.
Qed.

Lemma get_set_other k k' v d : k <> k' -> get k (set k' v d) = get k d.
Proof.
  intros Hne. induction d as [|[k0 v0] d IH]; simpl.
  - destruct (String.eqb k k') eqn:E; [|reflexivity].
    apply String.eqb_eq in E. contradiction.
  - destruct (String.eqb k' k0) eqn:E; simpl.
    + apply String.eqb_eq in E; subst.
      destruct (String.eqb k k0) eqn:E'; [|reflexivity].
      apply String.eqb_eq in E'. contradiction.
    + now rewrite IH.
Qed.

(** Deleting, one after the other, the keys of the entries a test
    rejects leaves the entries it accepts. *)
Lemma fold_del_skip l : forall k v d,
  ~ In k l ->
  fold_left (fun d s => del s d) l ((k, v) :: d)
  = (k, v) :: fold_left (fun d s => del s d) l d.
Proof.
  induction l as [|s l IH]; simpl; intros k v d Hn; [reflexivity|].
  destruct (String.eqb s k) eqn:E.
  - apply String.eqb_eq in E; subst. exfalso; auto.
  - apply IH. auto.
Qed.

Lemma fold_del_filter (keep : Z -> bool) d :
  NoDup (keys d) ->
  fold_left (fun d s => del s d)
            (keys (filter (fun kv => negb (keep (snd kv))) d)) d
  = filter (fun kv => keep (snd kv)) d.
Proof.
  induction d as [|[k v] d IH]; simpl; intros H; [reflexivity|].
  inversion H as [|? ? Hn Hd]; subst.
  destruct (keep v); simpl.
  - rewrite fold_del_skip, IH; auto.
    intros Hin. apply Hn. unfold keys in *.
    apply in_map_iff in Hin as [[k' v'] [<- Hin]].
    apply filter_In in Hin as [Hin _].
    apply in_map_iff. exists (k', v'); auto.
  - rewrite String.eqb_refl. auto.
Qed.

Lemma filter_nodup_keys (f : string * Z -> bool) d :
  NoDup (keys d) -> NoDup (keys (filter f d)).
Proof.
  induction d as [|[k v] d IH]; simpl; intros H; [assumption|].
  inversion H as [|? ? Hn Hd]; subst.
  destruct (f (k, v)); simpl; auto.
  constructor; auto.
  intros Hin. apply Hn. unfold keys in *.
  apply in_map_iff in Hin as [[k' v'] [<- Hin]].
  apply filter_In in Hin as [Hin _].
  apply in_map_iff. exists (k', v'); auto.
Qed.

End DictFacts.

(** ** The PID store *)

Section Store.

Lemma is_process_running_alive pid w :
  is_process_running pid w = (alive w pid, w).
Proof.
  unfold is_process_running, os_kill0, alive.
  destruct (psutil_ok w); [reflexivity|].
  destruct (procs w pid) as [pr|]; [|reflexivity].
  destruct (may_signal pr); reflexivity.
Qed.

Lemma collect_stale_keys items w :
  collect_stale items w = (keys (stale_entries w items), w).
Proof.
  induction items as [|[s pid] items IH]; simpl; [reflexivity|].
  unfold bind. rewrite is_process_running_alive, IH.
  destruct (alive w pid); reflexivity.
Qed.

Lemma drop_stale_fold stale : forall pids w,
  drop_stale stale pids w
  = (fold_left (fun d s => del s d) stale pids, announce stale w).
Proof.
  induction stale as [|s stale IH]; simpl; intros pids w; [reflexivity|].
  unfold bind, print. rewrite IH. reflexivity.
Qed.

Lemma load_pids_nodup w : NoDup (keys (fst (load_pids w))).
Proof.
  unfold load_pids. destruct (pid_file w); simpl; try constructor.
  apply of_items_nodup.
Qed.

Lemma load_pids_procs w : procs (snd (load_pids w)) = procs w.
Proof. unfold load_pids. destruct (pid_file w); reflexivity. Qed.

(** cleanup_stale_pids in one equation. *)
Lemma cleanup_stale_pids_eq w :
  cleanup_stale_pids w =
  let w1 := snd (load_pids w) in
  let pids := live_entries w (stored w) in
  (pids,
   match stale_entries w (stored w) with
   | [] => w1
   | _ :: _ => snd (save_pids pids (announce (keys (stale_entries w (stored w))) w1))
   end).
Proof.
  unfold cleanup_stale_pids, bind, stored.
  destruct (load_pids w) as [d w1] eqn:L. simpl.
  rewrite collect_stale_keys, drop_stale_fold.
  assert (P : procs w1 = procs w) by (rewrite <- (load_pids_procs w), L; reflexivity).
  assert (A : forall items, stale_entries w1 items = stale_entries w items).
  { intros. unfold stale_entries, alive. now rewrite P. }
  rewrite A.
  assert (N : NoDup (keys d)) by (pose proof (load_pids_nodup w) as N; now rewrite L in N).
  assert (F : fold_left (fun d s => del s d) (keys (stale_entries w d)) d
              = live_entries w d) by (apply fold_del_filter, N).
  rewrite F.
  destruct (stale_entries w d) as [|e st]; simpl; [reflexivity|].
  destruct (save_pids _ _); reflexivity.
Qed.

End Store.

Section Cleanup.

Lemma announce_fields stale : forall w,
  pid_file (announce stale w) = pid_file w
  /\ disk (announce stale w) = disk w
  /\ scripts (announce stale w) = scripts w
  /\ psutil_ok (announce stale w) = psutil_ok w
  /\ procs (announce stale w) = procs w
  /\ popen_error (announce stale w) = popen_error w
  /\ pid_supply (announce stale w) = pid_supply w
  /\ writes (announce stale w) = writes w
  /\ signals (announce stale w) = signals w.
Proof.
  induction stale as [|s stale IH]; simpl; intros w.
  - repeat split.
  - destruct (IH (emit (Printed (MsgCleaningStale s)) w))
      as (A & B & C & D & E & F & G & H & I).
    rewrite A, B, C, D, E, F, G, H, I. unfold writes, signals. simpl.
    rewrite !filter_app. simpl. rewrite !app_nil_r. repeat split.
Qed.

Lemma load_pids_fields w :
  pid_file (snd (load_pids w)) = pid_file w
  /\ disk (snd (load_pids w)) = disk w
  /\ scripts (snd (load_pids w)) = scripts w
  /\ psutil_ok (snd (load_pids w)) = psutil_ok w
  /\ procs (snd (load_pids w)) = procs w
  /\ popen_error (snd (load_pids w)) = popen_error w
  /\ pid_supply (snd (load_pids w)) = pid_supply w
  /\ writes (snd (load_pids w)) = writes w
  /\ signals (snd (load_pids w)) = signals w.
Proof.
  unfold load_pids, writes, signals.
  destruct (pid_file w) eqn:F; simpl; rewrite ?F, ?filter_app; simpl;
    rewrite ?app_nil_r; repeat split.
Qed.

Lemma get_filter (f : string * Z -> bool) k d :
  NoDup (keys d) ->
  get k (filter f d)
  = match get k d with
    | Some v => if f (k, v) then Some v else None
    | None => None
    end.
Proof.
  induction d as [|[k' v'] d IH]; simpl; intros H; [reflexivity|].
  inversion H as [|? ? Hn Hd]; subst.
  destruct (String.eqb k k') eqn:E.
  - apply String.eqb_eq in E; subst.
    destruct (f (k', v')); simpl.
    + now rewrite String.eqb_refl.
    + apply get_not_in_keys. intros Hin. apply Hn.
      unfold keys in *. apply in_map_iff in Hin as [[k0 v0] [<- Hin]].
      apply filter_In in Hin as [Hin _]. apply in_map_iff. exists (k0, v0); auto.
  - destruct (f (k', v')); simpl; rewrite ?E; auto.
Qed.

Lemma save_pids_fields d w :
  disk (snd (save_pids d w)) = disk w
  /\ scripts (snd (save_pids d w)) = scripts w
  /\ psutil_ok (snd (save_pids d w)) = psutil_ok w
  /\ procs (snd (save_pids d w)) = procs w
  /\ popen_error (snd (save_pids d w)) = popen_error w
  /\ pid_supply (snd (save_pids d w)) = pid_supply w
  /\ signals (snd (save_pids d w)) = signals w.
Proof.
  unfold save_pids, signals. destruct (disk w) eqn:D; simpl;
    rewrite ?D, ?filter_app; simpl; rewrite ?app_nil_r; repeat split.
Qed.

(** cleanup_stale_pids touches the PID file and the output, nothing else. *)
Lemma cleanup_frame w :
  disk (snd (cleanup_stale_pids w)) = disk w
  /\ scripts (snd (cleanup_stale_pids w)) = scripts w
  /\ psutil_ok (snd (cleanup_stale_pids w)) = psutil_ok w
  /\ procs (snd (cleanup_stale_pids w)) = procs w
  /\ popen_error (snd (cleanup_stale_pids w)) = popen_error w
  /\ pid_supply (snd (cleanup_stale_pids w)) = pid_supply w
  /\ signals (snd (cleanup_stale_pids w)) = signals w.
Proof.
  rewrite cleanup_stale_pids_eq. cbv zeta. simpl snd.
  destruct (load_pids_fields w) as (A & B & C & D & E & F & G & H & I).
  destruct (stale_entries w (stored w)) as [|e st]; [repeat split; assumption|].
  destruct (announce_fields (keys (e :: st)) (snd (load_pids w)))
    as (A' & B' & C' & D' & E' & F' & G' & H' & I').
  destruct (save_pids_fields (live_entries w (stored w))
              (announce (keys (e :: st)) (snd (load_pids w))))
    as (B2 & C2 & D2 & E2 & F2 & G2 & I2).
  repeat split; congruence.
Qed.

End Cleanup.

(** The cleanup in full, in the form the later proofs use it. *)
Lemma cleanup_spec (w : World) :
  let loaded := stored w in
  let pids := fst (cleanup_stale_pids w) in
  let w' := snd (cleanup_stale_pids w) in
  pids = live_entries w loaded
  /\ (forall s pid,
        get s pids = Some pid <-> get s loaded = Some pid /\ alive w pid = true)
  /\ procs w' = procs w
  /\ match stale_entries w loaded with
     | [] => pid_file w' = pid_file w /\ writes w' = writes w
     | _ :: _ =>
         w' = snd (save_pids pids
                     (announce (keys (stale_entries w loaded)) (snd (load_pids w))))
         /\ match disk w with
            | DiskOk => pid_file w' = Holds pids /\ writes w' = writes w ++ [Wrote pids]
            | DiskOpenFails => pid_file w' = pid_file w /\ writes w' = writes w
            | DiskWriteFails => pid_file w' = Garbled /\ writes w' = writes w ++ [Truncated]
            end
     end.
Proof.
  cbv zeta. rewrite cleanup_stale_pids_eq. cbv zeta. simpl fst. simpl snd.
  destruct (load_pids_fields w) as (A & B & C & D & E & F & G & H & I).
  split; [reflexivity|]. split.
  { intros s pid. unfold live_entries.
    rewrite get_filter by apply load_pids_nodup. simpl.
    fold (stored w). destruct (get s (stored w)) as [v|].
    - destruct (alive w v) eqn:L; split.
      + intros [= <-]. auto.
      + intros [[= <-] _]. reflexivity.
      + discriminate.
      + intros [[= <-] L']. congruence.
    - split; [discriminate|intros [? _]; discriminate]. }
  destruct (stale_entries w (stored w)) as [|e st] eqn:S.
  - rewrite E, A, H. auto.
  - set (wa := announce (keys (e :: st)) (snd (load_pids w))).
    destruct (announce_fields (keys (e :: st)) (snd (load_pids w)))
      as (A' & B' & C' & D' & E' & F' & G' & H' & I').
    fold wa in A', B', C', D', E', F', G', H', I'.
    assert (Bw : disk wa = disk w) by congruence.
    split; [|split; [reflexivity|]].
    + unfold save_pids. destruct (disk wa); simpl; congruence.
    + unfold save_pids. rewrite Bw.
      destruct (disk w); simpl; unfold writes; simpl;
        rewrite ?filter_app; simpl; rewrite ?app_nil_r;
        fold (writes wa); fold (writes w); split; congruence.
Qed.

(** C2.  cleanup_stale_pids returns the loaded mapping without the entries
    whose pid is not alive, and with every other entry, in the order of
    the file: a name is in the result with a pid exactly when the store
    has it with that pid and the pid is alive.  When no entry is stale the
    PID file is not written: the file and the list of writes are as
    before.  When at least one entry is stale the pruned mapping is saved,
    once: after the announcement of the stale names the world is the one
    [save_pids] of the pruned mapping leaves, which on a working disk is
    the file holding the pruned mapping after one more write.  The cleanup
    sends no signal and leaves the processes as they are. *)
Theorem cleanup_stale_pids_exact (w : World) :
  let loaded := stored w in
  let pids := fst (cleanup_stale_pids w) in
  let w' := snd (cleanup_stale_pids w) in
  pids = live_entries w loaded
  /\ (forall s pid,
        get s pids = Some pid <-> get s loaded = Some pid /\ alive w pid = true)
  /\ procs w' = procs w /\ signals w' = signals w
  /\ match stale_entries w loaded with
     | [] => pid_file w' = pid_file w /\ writes w' = writes w
     | _ :: _ =>
         w' = snd (save_pids pids
                     (announce (keys (stale_entries w loaded)) (snd (load_pids w))))
         /\ match disk w with
            | DiskOk => pid_file w' = Holds pids /\ writes w' = writes w ++ [Wrote pids]
            | DiskOpenFails => pid_file w' = pid_file w /\ writes w' = writes w
            | DiskWriteFails => pid_file w' = Garbled /\ writes w' = writes w ++ [Truncated]
            end
     end.
Proof.
  cbv zeta.
  destruct (cleanup_spec w) as (P & Q & Pr & X).
  destruct (cleanup_frame w) as (_ & _ & _ & _ & _ & _ & Sg).
  repeat (split; [assumption|]). exact X.
Qed.

Section Signals.

Lemma settle_may_signal pr pr' :
  settle pr = Some pr' -> pr' = pr.
Proof.
  unfold settle. destruct (exits_in pr) as [[|k]|]; congruence.
Qed.

Lemma hit_may_signal sig pr : may_signal (hit sig pr) = may_signal pr.
Proof. unfold hit. destruct (reaction sig pr); reflexivity. Qed.

Lemma age_may_signal n pr : may_signal (age n pr) = may_signal pr.
Proof. unfold age. destruct (exits_in pr); reflexivity. Qed.

Lemma deliver_may_signal pid sig ps pr' :
  deliver pid sig ps pid = Some pr' ->
  exists pr, ps pid = Some pr /\ may_signal pr' = may_signal pr.
Proof.
  unfold deliver. rewrite Z.eqb_refl.
  destruct (ps pid) as [pr|]; [|discriminate].
  intros H. apply settle_may_signal in H. subst.
  exists pr. split; [reflexivity|apply hit_may_signal].
Qed.

Lemma elapse_may_signal n ps pid pr' :
  elapse n ps pid = Some pr' ->
  exists pr, ps pid = Some pr /\ may_signal pr' = may_signal pr.
Proof.
  unfold elapse. destruct (ps pid) as [pr|]; [|discriminate].
  intros H. apply settle_may_signal in H. subst.
  exists pr. split; [reflexivity|apply age_may_signal].
Qed.

Lemma signals_emit e w :
  signals (emit e w) = signals w ++ (if is_signal e then [e] else []).
Proof.
  unfold signals. simpl. rewrite filter_app. simpl.
  destruct (is_signal e); reflexivity.
Qed.

Lemma writes_emit e w :
  writes (emit e w) = writes w ++ (if is_write e then [e] else []).
Proof.
  unfold writes. simpl. rewrite filter_app. simpl.
  destruct (is_write e); reflexivity.
Qed.

Lemma save_pids_signals d w : signals (snd (save_pids d w)) = signals w.
Proof.
  unfold save_pids. destruct (disk w); simpl;
    rewrite ?signals_emit; simpl; rewrite ?app_nil_r; reflexivity.
Qed.

(** A signal the controller may send is delivered. *)
Lemma os_kill_delivered pid sig w pr :
  procs w pid = Some pr -> may_signal pr = true ->
  os_kill pid sig w
  = (inr tt, emit (Signalled pid sig) (with_procs (deliver pid sig (procs w)) w)).
Proof. intros H S. unfold os_kill. now rewrite H, S. Qed.

(** The [try] block of a graceful stop whose first signal was delivered
    and whose target is alive after the wait. *)
Lemma stop_try_escalates service pid pids w w2 :
  os_kill pid SIGHUP w = (inr tt, w2) ->
  alive (snd (time_sleep 2 w2)) pid = true ->
  stop_try service true pid pids w
  = (inr true,
     emit (Printed (MsgStopped true service pid))
       (snd (save_pids pids
          (emit (Signalled pid SIGTERM)
             (with_procs (deliver pid SIGTERM (elapse 2 (procs w2)))
                (emit (Printed (MsgForcing service)) (snd (time_sleep 2 w2)))))))).
Proof.
  intros K A. unfold stop_try, bindT at 1. rewrite K.
  unfold bindT at 1. unfold bindT at 1. unfold lift at 1.
  destruct (time_sleep 2 w2) as [[] w3] eqn:S3.
  unfold bindT at 1, lift at 1. rewrite is_process_running_alive.
  simpl in A. rewrite A.
  unfold bindT at 1, lift at 1, print at 1.
  assert (P : exists pr, procs w3 pid = Some pr /\ may_signal pr = true).
  { unfold alive in A. destruct (procs w3 pid) as [pr3|] eqn:P3; [|discriminate].
    unfold time_sleep in S3. injection S3 as <-. simpl in P3.
    apply elapse_may_signal in P3 as (pr2 & P2 & M2).
    unfold os_kill in K. destruct (procs w pid) as [pr|] eqn:P0; [|discriminate].
    destruct (may_signal pr) eqn:M0; [|discriminate].
    injection K as <-. simpl in P2.
    apply deliver_may_signal in P2 as (pr0 & P0' & M0').
    exists pr3. split; [reflexivity|]. congruence. }
  destruct P as (pr & P & Ms).
  rewrite (os_kill_delivered pid SIGTERM (emit (Printed (MsgForcing service)) w3) pr P Ms).
  unfold bindT, lift, ret, print. simpl.
  destruct (save_pids pids _) as [[] w5] eqn:S5. simpl.
  unfold time_sleep in S3. injection S3 as <-. simpl in S5.
  rewrite S5. reflexivity.
Qed.

(** The same block when the target is gone after the wait. *)
Lemma stop_try_drained service pid pids w w2 :
  os_kill pid SIGHUP w = (inr tt, w2) ->
  alive (snd (time_sleep 2 w2)) pid = false ->
  stop_try service true pid pids w
  = (inr true,
     emit (Printed (MsgStopped true service pid))
       (snd (save_pids pids (snd (time_sleep 2 w2))))).
Proof.
  intros K A. unfold stop_try, bindT at 1. rewrite K.
  unfold bindT at 1. unfold bindT at 1. unfold lift at 1.
  destruct (time_sleep 2 w2) as [[] w3] eqn:S3.
  unfold bindT at 1, lift at 1. rewrite is_process_running_alive.
  simpl in A. rewrite A. unfold bindT, lift, ret, print. simpl.
  destruct (save_pids pids w3) as [[] w5]. reflexivity.
Qed.

(** The block when the first [os.kill] raises: nothing else is run. *)
Lemma stop_try_raises service (graceful : bool) pid pids w e w' :
  os_kill pid (if graceful then SIGHUP else SIGTERM) w = (inl e, w') ->
  stop_try service graceful pid pids w = (inl e, w).
Proof.
  intros K. unfold stop_try, bindT at 1. rewrite K.
  unfold os_kill in K. destruct (procs w pid) as [pr|].
  - destruct (may_signal pr); [discriminate|]. injection K as He Hw. now subst.
  - injection K as He Hw. now subst.
Qed.

Lemma os_kill_signals pid sig w w2 :
  os_kill pid sig w = (inr tt, w2) ->
  signals w2 = signals w ++ [Signalled pid sig].
Proof.
  unfold os_kill. destruct (procs w pid) as [pr|]; [|discriminate].
  destruct (may_signal pr); [|discriminate]. intros K. injection K as <-.
  rewrite signals_emit. reflexivity.
Qed.

End Signals.

(** C6.  A graceful stop of a tracked service sends SIGHUP.  When the
    signal is delivered the stop waits two seconds and probes the process:
    if it is still alive the stop sends SIGTERM to the same pid, so the
    signals of the stop are SIGHUP then SIGTERM; if it is gone, SIGHUP is
    the only signal.  When [os.kill] raises instead, no signal was sent at
    all.  In no case is the target left with the graceful signal alone
    while it is seen alive after the wait. *)
Theorem graceful_stop_escalates (w : World) (service : string) (pid : Z) :
  get service (fst (cleanup_stale_pids w)) = Some pid ->
  let r := stop_service service true w in
  match os_kill pid SIGHUP (snd (cleanup_stale_pids w)) with
  | (inr _, w2) =>
      fst r = true
      /\ signals (snd r)
         = signals w ++ Signalled pid SIGHUP
             :: (if alive (snd (time_sleep 2 w2)) pid
                 then [Signalled pid SIGTERM] else [])
  | (inl _, _) => signals (snd r) = signals w
  end.
Proof.
  intros G. cbv zeta. unfold stop_service, bind.
  pose proof (cleanup_frame w) as (_ & _ & _ & _ & _ & _ & Sc).
  destruct (cleanup_stale_pids w) as [pids wc] eqn:C. cbn [fst snd] in G, Sc |- *.
  unfold stop_with. rewrite G. unfold bind.
  destruct (os_kill pid SIGHUP wc) as [[e|[]] w2] eqn:K.
  - rewrite (stop_try_raises service true pid (del service pids) wc e w2 K).
    destruct e; unfold print, ret.
    + pose proof (save_pids_signals (del service pids)
                    (emit (Printed (MsgPidNotFound service pid)) wc)) as X.
      destruct (save_pids (del service pids) _) as [[] w5].
      simpl in X |- *. rewrite X, signals_emit. simpl. rewrite app_nil_r. exact Sc.
    + simpl. rewrite signals_emit. simpl. rewrite app_nil_r. exact Sc.
  - pose proof (os_kill_signals pid SIGHUP wc w2 K) as S2.
    destruct (alive (snd (time_sleep 2 w2)) pid) eqn:A.
    + rewrite (stop_try_escalates service pid (del service pids) wc w2 K A).
      simpl fst. simpl snd. split; [reflexivity|].
      rewrite signals_emit, save_pids_signals, signals_emit. simpl.
      rewrite app_nil_r. unfold signals at 1. simpl.
      rewrite !filter_app. simpl. rewrite !app_nil_r. fold (signals w2).
      rewrite S2, Sc, <- app_assoc. reflexivity.
    + rewrite (stop_try_drained service pid (del service pids) wc w2 K A).
      simpl fst. simpl snd. split; [reflexivity|].
      rewrite signals_emit, save_pids_signals. simpl.
      rewrite app_nil_r. unfold signals at 1. simpl.
      rewrite !filter_app. simpl. rewrite !app_nil_r. fold (signals w2).
      rewrite S2, Sc. reflexivity.
Qed.

(** C6 at a concrete world: jira runs as pid 10 and ignores SIGHUP. *)
Lemma graceful_stop_escalates_witness :
  let w := sample (Holds [("jira", 10)]) [(10, stubborn)] in
  let r := stop_service "jira" true w in
  get "jira" (fst (cleanup_stale_pids w)) = Some 10
  /\ fst r = true
  /\ signals (snd r) = [Signalled 10 SIGHUP; Signalled 10 SIGTERM].
Proof.
  cbv zeta. split; [reflexivity|].
  exact (graceful_stop_escalates
           (sample (Holds [("jira", 10)]) [(10, stubborn)]) "jira" 10 eq_refl).
Defined.

Section Stop.

Lemma set_fresh k v d : ~ In k (keys d) -> set k v d = d ++ [(k, v)].
Proof.
  induction d as [|[k' v'] d IH]; simpl; intros H; [reflexivity|].
  destruct (String.eqb k k') eqn:E.
  - apply String.eqb_eq in E. subst. exfalso. auto.
  - rewrite IH; auto.
Qed.

(** A mapping written by [json.dump] is read back as it was. *)
Lemma of_items_id d : NoDup (keys d) -> of_items d = d.
Proof.
  unfold of_items.
  assert (G : forall items acc, NoDup (keys (acc ++ items)) ->
              fold_left (fun d kv => set (fst kv) (snd kv) d) items acc = acc ++ items).
  { induction items as [|[k v] items IH]; simpl; intros acc H.
    - now rewrite app_nil_r.
    - rewrite set_fresh.
      + rewrite IH; rewrite <- app_assoc; [reflexivity|assumption].
      + unfold keys in H. rewrite map_app in H. simpl in H.
        apply NoDup_remove_2 in H. intros Hin. apply H.
        apply in_or_app. left. exact Hin. }
  intros H. apply (G d []). exact H.
Qed.

Lemma stored_holds d w : NoDup (keys d) -> pid_file w = Holds d -> stored w = d.
Proof.
  intros N F. unfold stored, load_pids. rewrite F. simpl. apply of_items_id, N.
Qed.

Lemma stored_same_file w w' : pid_file w' = pid_file w -> stored w' = stored w.
Proof.
  intros F. unfold stored, load_pids. rewrite F. destruct (pid_file w); reflexivity.
Qed.

Lemma live_entries_nodup w : NoDup (keys (live_entries w (stored w))).
Proof. apply filter_nodup_keys, load_pids_nodup. Qed.

Lemma no_stale_all_live w d : stale_entries w d = [] -> live_entries w d = d.
Proof.
  unfold stale_entries, live_entries.
  induction d as [|[k v] d IH]; simpl; [reflexivity|].
  destruct (alive w v); simpl; [|discriminate].
  intros H. now rewrite IH.
Qed.

(** On a working disk the store after the cleanup is the mapping the
    cleanup returns. *)
Lemma cleanup_stored w :
  disk w = DiskOk ->
  stored (snd (cleanup_stale_pids w)) = fst (cleanup_stale_pids w).
Proof.
  intros D. pose proof (cleanup_spec w) as X. cbv zeta in X.
  destruct X as (P & _ & _ & X). rewrite P.
  destruct (stale_entries w (stored w)) eqn:S.
  - destruct X as [F _]. rewrite (no_stale_all_live _ _ S).
    apply stored_same_file, F.
  - destruct X as [_ X]. rewrite D in X. destruct X as [F _].
    apply stored_holds; [apply live_entries_nodup|]. now rewrite <- P.
Qed.

(** Whatever the disk, a name the store does not hold is not in the store
    the cleanup leaves. *)
Lemma cleanup_keeps_untracked w s :
  tracked w s = None -> tracked (snd (cleanup_stale_pids w)) s = None.
Proof.
  intros U. pose proof (cleanup_spec w) as X. cbv zeta in X.
  destruct X as (P & Q & _ & X). unfold tracked in *.
  destruct (stale_entries w (stored w)) eqn:S.
  - destruct X as [F _]. rewrite (stored_same_file _ _ F). exact U.
  - destruct X as [_ X].
    assert (N : get s (fst (cleanup_stale_pids w)) = None).
    { destruct (get s (fst (cleanup_stale_pids w))) as [pid|] eqn:G; [|reflexivity].
      apply Q in G as [G _]. congruence. }
    destruct (disk w); destruct X as [F _].
    + erewrite stored_holds; [exact N| |exact F]. rewrite P. apply live_entries_nodup.
    + rewrite (stored_same_file _ _ F). exact U.
    + unfold stored, load_pids. rewrite F. reflexivity.
Qed.

(** A stop of a service with no live record: nothing is signalled. *)
Lemma stop_service_no_record w s graceful :
  get s (fst (cleanup_stale_pids w)) = None ->
  stop_service s graceful w
  = (true, emit (Printed (MsgNotRunning s)) (snd (cleanup_stale_pids w))).
Proof.
  intros G. unfold stop_service, bind.
  destruct (cleanup_stale_pids w) as [pids wc]. simpl in *.
  unfold stop_with. rewrite G. reflexivity.
Qed.

(** The [try] block when the target may be signalled: it runs to its
    end, through the save. *)
Lemma stop_try_completes s graceful pid d w pr :
  procs w pid = Some pr -> may_signal pr = true ->
  exists wk,
    stop_try s graceful pid d w
    = (inr true, emit (Printed (MsgStopped graceful s pid)) (snd (save_pids d wk)))
    /\ disk wk = disk w /\ scripts wk = scripts w /\ psutil_ok wk = psutil_ok w
    /\ popen_error wk = popen_error w /\ pid_supply wk = pid_supply w
    /\ exists more,
         signals wk
         = signals w ++ Signalled pid (if graceful then SIGHUP else SIGTERM) :: more.
Proof.
  intros P Ms.
  destruct graceful.
  - pose proof (os_kill_delivered pid SIGHUP w pr P Ms) as K.
    destruct (alive (snd (time_sleep 2
               (emit (Signalled pid SIGHUP)
                  (with_procs (deliver pid SIGHUP (procs w)) w)))) pid) eqn:A.
    + rewrite (stop_try_escalates s pid d w _ K A).
      eexists. split; [reflexivity|]. simpl. repeat split.
      unfold signals. simpl. rewrite !filter_app. simpl.
      rewrite <- !app_assoc. simpl. eexists. reflexivity.
    + unfold stop_try, bindT at 1. rewrite K.
      unfold bindT at 1. unfold bindT at 1. unfold lift at 1.
      destruct (time_sleep 2 _) as [[] w3] eqn:S3.
      unfold bindT at 1, lift at 1. rewrite is_process_running_alive.
      simpl in A. rewrite A. unfold bindT, lift, ret, print. simpl.
      destruct (save_pids d w3) as [[] w5] eqn:S5.
      exists w3. rewrite S5. split; [reflexivity|].
      unfold time_sleep in S3. injection S3 as <-. simpl. repeat split.
      unfold signals. simpl. rewrite !filter_app. simpl.
      rewrite <- !app_assoc. simpl. eexists. reflexivity.
  - pose proof (os_kill_delivered pid SIGTERM w pr P Ms) as K.
    unfold stop_try, bindT at 1. rewrite K.
    unfold bindT, lift, ret, print. simpl.
    destruct (save_pids d _) as [[] w5] eqn:S5.
    eexists. rewrite S5. split; [reflexivity|]. simpl. repeat split.
    unfold signals. simpl. rewrite !filter_app. simpl. eexists. reflexivity.
Qed.

(** A stop on a working disk, of a service whose process (if it has one)
    the controller may signal: success, and the service is untracked. *)
Lemma stop_service_untracks w s graceful :
  disk w = DiskOk ->
  (forall pid pr, tracked w s = Some pid -> procs w pid = Some pr ->
                  may_signal pr = true) ->
  let r := stop_service s graceful w in
  fst r = true /\ tracked (snd r) s = None
  /\ disk (snd r) = disk w /\ scripts (snd r) = scripts w
  /\ psutil_ok (snd r) = psutil_ok w /\ popen_error (snd r) = popen_error w
  /\ pid_supply (snd r) = pid_supply w.
Proof.
  intros D Hs. cbv zeta.
  pose proof (cleanup_spec w) as X. cbv zeta in X.
  destruct X as (P & Q & Pr & _).
  pose proof (cleanup_frame w) as (Fd & Fs & Fp & _ & Fe & Fy & _).
  pose proof (cleanup_stored w D) as St.
  destruct (get s (fst (cleanup_stale_pids w))) as [pid|] eqn:G.
  - apply Q in G as G'. destruct G' as [Gs A].
    unfold alive in A. destruct (procs w pid) as [pr|] eqn:Pp; [|discriminate].
    assert (Ms : may_signal pr = true) by (eapply Hs; eauto).
    unfold stop_service, bind.
    destruct (cleanup_stale_pids w) as [pids wc] eqn:C. simpl in *.
    unfold stop_with. rewrite G. unfold bind.
    rewrite <- Pr in Pp.
    destruct (stop_try_completes s graceful pid (del s pids) wc pr Pp Ms)
      as (wk & E & Kd & Ks & Kp & Ke & Ky & _).
    rewrite E. simpl.
    assert (N : NoDup (keys pids)) by (rewrite P; apply live_entries_nodup).
    assert (Dk : disk wk = DiskOk) by congruence.
    split; [reflexivity|]. split.
    + unfold tracked. erewrite stored_holds with (d := del s pids).
      * apply get_del_same, N.
      * apply del_nodup, N.
      * simpl. unfold save_pids. rewrite Dk. reflexivity.
    + destruct (save_pids_fields (del s pids) wk) as (B2 & C2 & D2 & _ & F2 & G2 & _).
      repeat split; congruence.
  - rewrite (stop_service_no_record w s graceful G). simpl.
    split; [reflexivity|]. split; [|repeat split; assumption].
    unfold tracked.
    rewrite (stored_same_file (snd (cleanup_stale_pids w)) (emit _ _) eq_refl).
    rewrite St. exact G.
Qed.

End Stop.

(** C5, as amended.  On a working disk, for a service whose process (when
    it has one) the controller may signal, two consecutive stops both
    report success, the service has no record in the store after the first
    and after the second, and the second sends no signal.  A stop that
    finds no live record for the service after the cleanup sends no signal
    at all. *)
Theorem stop_service_idempotent (w : World) (s : string) (graceful : bool) :
  disk w = DiskOk ->
  (forall pid pr, tracked w s = Some pid -> procs w pid = Some pr ->
                  may_signal pr = true) ->
  let r1 := stop_service s graceful w in
  let r2 := stop_service s graceful (snd r1) in
  fst r1 = true /\ fst r2 = true
  /\ tracked (snd r1) s = None /\ tracked (snd r2) s = None
  /\ signals (snd r2) = signals (snd r1)
  /\ match get s (fst (cleanup_stale_pids w)) with
     | None => signals (snd r1) = signals w
     | Some pid =>
         exists more,
           signals (snd r1)
           = signals w ++ Signalled pid (if graceful then SIGHUP else SIGTERM) :: more
     end.
Proof.
  intros D Hs. cbv zeta.
  destruct (stop_service_untracks w s graceful D Hs) as (R1 & U1 & D1 & _).
  set (w1 := snd (stop_service s graceful w)) in *.
  assert (G1 : get s (fst (cleanup_stale_pids w1)) = None).
  { rewrite <- cleanup_stored by congruence. apply cleanup_keeps_untracked, U1. }
  rewrite (stop_service_no_record w1 s graceful G1). simpl.
  split; [assumption|]. split; [reflexivity|]. split; [assumption|]. split.
  { unfold tracked.
    rewrite (stored_same_file (snd (cleanup_stale_pids w1)) (emit _ _) eq_refl).
    apply cleanup_keeps_untracked, U1. }
  split.
  { rewrite signals_emit. simpl. rewrite app_nil_r. apply cleanup_frame. }
  subst w1.
  pose proof (cleanup_frame w) as (_ & _ & _ & Pc & _ & _ & Sc).
  destruct (get s (fst (cleanup_stale_pids w))) as [pid|] eqn:G.
  - pose proof (cleanup_spec w) as X. cbv zeta in X. destruct X as (_ & Q & _ & _).
    apply Q in G as G'. destruct G' as [Gs A].
    unfold alive in A. destruct (procs w pid) as [pr|] eqn:Pp; [|discriminate].
    assert (Ms : may_signal pr = true) by (eapply Hs; eauto).
    unfold stop_service, bind.
    destruct (cleanup_stale_pids w) as [pids wc] eqn:C. simpl in *.
    unfold stop_with. rewrite G. unfold bind. rewrite <- Pc in Pp.
    destruct (stop_try_completes s graceful pid (del s pids) wc pr Pp Ms)
      as (wk & E & _ & _ & _ & _ & _ & more & Sk).
    rewrite E. simpl. exists more.
    rewrite signals_emit. simpl. rewrite app_nil_r.
    destruct (save_pids_fields (del s pids) wk) as (_ & _ & _ & _ & _ & _ & S2).
    congruence.
  - rewrite (stop_service_no_record w s graceful G). simpl.
    rewrite signals_emit. simpl. rewrite app_nil_r. exact Sc.
Qed.

(** C5 at a concrete world: jira runs as pid 10 under the user's own name. *)
Lemma stop_service_idempotent_witness :
  let w := sample (Holds [("jira", 10)]) [(10, server)] in
  let r1 := stop_service "jira" false w in
  let r2 := stop_service "jira" false (snd r1) in
  disk w = DiskOk
  /\ tracked w "jira" = Some 10
  /\ fst r1 = true /\ fst r2 = true
  /\ tracked (snd r1) "jira" = None /\ tracked (snd r2) "jira" = None
  /\ signals (snd r1) = [Signalled 10 SIGTERM]
  /\ signals (snd r2) = [Signalled 10 SIGTERM].
Proof.
  cbv zeta.
  pose proof (stop_service_idempotent
                (sample (Holds [("jira", 10)]) [(10, server)]) "jira" false) as H.
  cbv zeta in H.
  assert (D : disk (sample (Holds [("jira", 10)]) [(10, server)]) = DiskOk)
    by reflexivity.
  assert (S : forall pid pr,
             tracked (sample (Holds [("jira", 10)]) [(10, server)]) "jira" = Some pid ->
             procs (sample (Holds [("jira", 10)]) [(10, server)]) pid = Some pr ->
             may_signal pr = true).
  { intros pid pr T P. vm_compute in T. injection T as <-.
    vm_compute in P. injection P as <-. reflexivity. }
  destruct (H D S) as (R1 & R2 & U1 & U2 & S2 & _).
  repeat split; try assumption; reflexivity.
Defined.

(** C5 as stated fails: jira is tracked as pid 11, a process of another
    user.  os.kill raises PermissionError, the stop reports failure and
    the record stays. *)
Lemma stop_service_foreign_process_fails :
  let w := sample (Holds [("jira", 11)]) [(11, foreign)] in
  tracked w "jira" = Some 11
  /\ fst (stop_service "jira" false w) = false
  /\ tracked (snd (stop_service "jira" false w)) "jira" = Some 11
  /\ fst (stop_service "jira" false (snd (stop_service "jira" false w))) = false.
Proof. vm_compute. repeat split. Qed.

Section Start.

Lemma validate_service_true w s :
  fst (validate_service s w) = true -> validate_service s w = (true, w).
Proof.
  unfold validate_service.
  destruct (negb (in_list s SERVICES)); [discriminate|].
  unfold bind, print, ret. simpl.
  destruct (server_path_exists s w); simpl; [reflexivity|discriminate].
Qed.

(** A record the cleanup kept is the record of a running process, so a
    start that finds one reports the service as already running. *)
Lemma start_with_live w s pid :
  get s (fst (cleanup_stale_pids w)) = Some pid ->
  start_with s (fst (cleanup_stale_pids w)) (snd (cleanup_stale_pids w))
  = (true, emit (Printed (MsgAlreadyRunning s pid)) (snd (cleanup_stale_pids w))).
Proof.
  intros G. unfold start_with. rewrite G. unfold bind.
  rewrite is_process_running_alive.
  pose proof (cleanup_spec w) as X. cbv zeta in X. destruct X as (_ & Q & Pr & _).
  apply Q in G as [_ A]. unfold alive in *. rewrite Pr, A. reflexivity.
Qed.

(** A valid service with no live record is launched. *)
Lemma start_service_launches w s :
  fst (validate_service s w) = true ->
  get s (fst (cleanup_stale_pids w)) = None ->
  start_service s w
  = launch s (fst (cleanup_stale_pids w)) (snd (cleanup_stale_pids w)).
Proof.
  intros V G. unfold start_service, bind at 1.
  rewrite (validate_service_true w s V). simpl. unfold bind.
  destruct (cleanup_stale_pids w) as [pids wc]. simpl in *.
  unfold start_with. rewrite G. reflexivity.
Qed.

Lemma popen_fields s w proc w1 :
  popen s w = (inr proc, w1) ->
  pid_file w1 = pid_file w /\ disk w1 = disk w /\ scripts w1 = scripts w
  /\ psutil_ok w1 = psutil_ok w /\ popen_error w1 = popen_error w
  /\ writes w1 = writes w
  /\ exists rest, pid_supply w = handle_pid proc :: rest /\ pid_supply w1 = rest.
Proof.
  unfold popen. destruct (popen_error w) eqn:E; [discriminate|].
  destruct (pid_supply w) as [|pid rest] eqn:S; [discriminate|].
  intros H. injection H as <- <-. simpl. rewrite writes_emit. simpl.
  rewrite app_nil_r.
  repeat match goal with |- _ /\ _ => split end; try reflexivity.
  - now rewrite E.
  - exists rest. split; reflexivity.
Qed.

(** The child is alive after the grace interval: record, save, report. *)
Lemma launch_survives s pids w proc w1 :
  popen s (emit (Printed (MsgStarting s)) w) = (inr proc, w1) ->
  alive (snd (time_sleep 1 w1)) (handle_pid proc) = true ->
  launch s pids w
  = (true,
     emit (Printed (MsgStarted s (handle_pid proc)))
       (snd (save_pids (set s (handle_pid proc) pids) (snd (time_sleep 1 w1))))).
Proof.
  intros P A. unfold launch, bind at 1, print at 1. unfold bind at 1. rewrite P.
  unfold bind at 1. destruct (time_sleep 1 w1) as [[] w2]. simpl in A.
  unfold bind at 1, still_running. rewrite A.
  unfold bind, print, ret. simpl.
  destruct (save_pids _ w2) as [[] w3]. reflexivity.
Qed.

(** The child is gone after the grace interval: report, nothing saved. *)
Lemma launch_dies s pids w proc w1 :
  popen s (emit (Printed (MsgStarting s)) w) = (inr proc, w1) ->
  alive (snd (time_sleep 1 w1)) (handle_pid proc) = false ->
  launch s pids w
  = (false,
     let w3 := emit (Printed (MsgFailedToStart s)) (snd (time_sleep 1 w1)) in
     if nonempty (handle_stderr proc)
     then emit (Printed (MsgError (handle_stderr proc))) w3
     else w3).
Proof.
  intros P A. unfold launch, bind at 1, print at 1. unfold bind at 1. rewrite P.
  unfold bind at 1. destruct (time_sleep 1 w1) as [[] w2]. simpl in A.
  unfold bind at 1, still_running. rewrite A.
  unfold bind, print, ret. simpl.
  destruct (nonempty (handle_stderr proc)); reflexivity.
Qed.

(** The cleanup creates no record. *)
Lemma cleanup_creates_no_record w s pid :
  tracked (snd (cleanup_stale_pids w)) s = Some pid -> tracked w s = Some pid.
Proof.
  pose proof (cleanup_spec w) as X. cbv zeta in X.
  destruct X as (P & Q & _ & X). unfold tracked.
  destruct (stale_entries w (stored w)) eqn:S.
  - destruct X as [F _]. now rewrite (stored_same_file _ _ F).
  - destruct X as [_ X]. destruct (disk w); destruct X as [F _].
    + erewrite stored_holds; [| |exact F].
      * intros G. apply Q in G. apply G.
      * rewrite P. apply live_entries_nodup.
    + now rewrite (stored_same_file _ _ F).
    + unfold stored, load_pids. rewrite F. discriminate.
Qed.

(** A launch that reports success on a working disk has recorded the pid
    the system gave to the child. *)
Lemma launch_true_file s pids w :
  disk w = DiskOk ->
  fst (launch s pids w) = true ->
  exists q, hd_error (pid_supply w) = Some q
            /\ pid_file (snd (launch s pids w)) = Holds (set s q pids)
            /\ disk (snd (launch s pids w)) = DiskOk.
Proof.
  intros D.
  destruct (popen s (emit (Printed (MsgStarting s)) w)) as [[e|proc] w1] eqn:P.
  - unfold launch, bind at 1, print at 1. unfold bind at 1. rewrite P.
    unfold bind, print, ret. simpl. discriminate.
  - destruct (alive (snd (time_sleep 1 w1)) (handle_pid proc)) eqn:A.
    + rewrite (launch_survives s pids w proc w1 P A). simpl. intros _.
      destruct (popen_fields _ _ _ _ P) as (_ & D1 & _ & _ & _ & _ & rest & S & _).
      simpl in S, D1. exists (handle_pid proc). rewrite S.
      unfold save_pids. simpl. rewrite D1, D. simpl. rewrite D1, D. auto.
    + rewrite (launch_dies s pids w proc w1 P A). simpl. discriminate.
Qed.

Lemma launch_true_records s pids w :
  NoDup (keys pids) -> disk w = DiskOk ->
  fst (launch s pids w) = true ->
  exists q, hd_error (pid_supply w) = Some q
            /\ tracked (snd (launch s pids w)) s = Some q.
Proof.
  intros N D H. destruct (launch_true_file s pids w D H) as (q & S & F & _).
  exists q. split; [assumption|]. unfold tracked.
  erewrite stored_holds; [apply get_set_same| |exact F]. apply set_nodup, N.
Qed.

Lemma start_service_invalid w s :
  fst (validate_service s w) = false -> fst (start_service s w) = false.
Proof.
  intros V. unfold start_service, bind.
  destruct (validate_service s w) as [ok wv]. simpl in V. subst. reflexivity.
Qed.

Lemma restart_eq s graceful w :
  restart s graceful w
  = start_service s
      (snd (time_sleep 1
              (snd (stop_service s graceful (emit (Printed (MsgRestarting s)) w))))).
Proof.
  unfold restart, bind, print.
  destruct (stop_service s graceful _) as [r1 w1]. reflexivity.
Qed.

End Start.

(** C3, as amended.  A registered service with no live record is launched;
    when its child is gone at the check after the one-second grace
    interval, start reports failure, prints the failure line followed by
    the child's stderr when there is any, and writes nothing after the
    cleanup: the PID file and the list of writes are those the cleanup of
    stale entries left, no record that was not in the store is in it, and
    when no entry was stale the file is as it was before the start. *)
Theorem failed_start_creates_no_record
        (w : World) (service : string) (proc : Handle) (w1 : World) :
  fst (validate_service service w) = true ->
  get service (fst (cleanup_stale_pids w)) = None ->
  popen service (emit (Printed (MsgStarting service)) (snd (cleanup_stale_pids w)))
  = (inr proc, w1) ->
  alive (snd (time_sleep 1 w1)) (handle_pid proc) = false ->
  let r := start_service service w in
  fst r = false
  /\ (exists before,
        trace (snd r)
        = before ++ Printed (MsgFailedToStart service)
            :: (if nonempty (handle_stderr proc)
                then [Printed (MsgError (handle_stderr proc))] else []))
  /\ pid_file (snd r) = pid_file (snd (cleanup_stale_pids w))
  /\ writes (snd r) = writes (snd (cleanup_stale_pids w))
  /\ (forall s pid, tracked (snd r) s = Some pid -> tracked w s = Some pid)
  /\ (stale_entries w (stored w) = [] ->
      pid_file (snd r) = pid_file w /\ writes (snd r) = writes w).
Proof.
  intros V G P A. cbv zeta.
  rewrite (start_service_launches w service V G).
  rewrite (launch_dies service _ _ proc w1 P A). cbv zeta. simpl fst. simpl snd.
  destruct (popen_fields _ _ _ _ P) as (F1 & _ & _ & _ & _ & W1 & _).
  simpl in F1. rewrite writes_emit in W1. simpl in W1. rewrite app_nil_r in W1.
  set (wc := snd (cleanup_stale_pids w)) in *.
  assert (F : pid_file (if nonempty (handle_stderr proc)
                        then emit (Printed (MsgError (handle_stderr proc)))
                               (emit (Printed (MsgFailedToStart service))
                                  (snd (time_sleep 1 w1)))
                        else emit (Printed (MsgFailedToStart service))
                               (snd (time_sleep 1 w1))) = pid_file wc).
  { destruct (nonempty (handle_stderr proc)); simpl; exact F1. }
  assert (W : writes (if nonempty (handle_stderr proc)
                      then emit (Printed (MsgError (handle_stderr proc)))
                             (emit (Printed (MsgFailedToStart service))
                                (snd (time_sleep 1 w1)))
                      else emit (Printed (MsgFailedToStart service))
                             (snd (time_sleep 1 w1))) = writes wc).
  { destruct (nonempty (handle_stderr proc)); rewrite ?writes_emit; simpl;
      rewrite ?app_nil_r; unfold writes in *; simpl;
      rewrite filter_app; simpl; rewrite app_nil_r; exact W1. }
  split; [reflexivity|]. split.
  { destruct (nonempty (handle_stderr proc)); simpl.
    - eexists. rewrite <- app_assoc. reflexivity.
    - eexists. reflexivity. }
  split; [exact F|]. split; [exact W|]. split.
  { intros s pid T. apply cleanup_creates_no_record. fold wc.
    unfold tracked in *. now rewrite <- (stored_same_file _ _ F). }
  intros S. pose proof (cleanup_spec w) as X. cbv zeta in X.
  destruct X as (_ & _ & _ & X). rewrite S in X.
  destruct X as [Fc Wc]. subst wc.
  split; [exact (eq_trans F Fc)|exact (eq_trans W Wc)].
Qed.

(** C3 at a concrete world: linear runs as pid 12, the jira script fails
    on import. *)
Lemma failed_start_creates_no_record_witness :
  let w := with_scripts broken (sample (Holds [("linear", 12)]) [(12, server)]) in
  let r := start_service "jira" w in
  fst (validate_service "jira" w) = true
  /\ get "jira" (fst (cleanup_stale_pids w)) = None
  /\ fst r = false
  /\ trace (snd r)
     = [Printed (MsgStarting "jira"); Spawned "jira" 4312; Slept 1;
        Printed (MsgFailedToStart "jira"); Printed (MsgError "ModuleNotFoundError")]
  /\ pid_file (snd r) = pid_file w
  /\ writes (snd r) = writes w.
Proof.
  cbv zeta.
  pose proof (failed_start_creates_no_record
                (with_scripts broken (sample (Holds [("linear", 12)]) [(12, server)]))
                "jira" (mkHandle 4312 "ModuleNotFoundError")
                (snd (popen "jira"
                        (emit (Printed (MsgStarting "jira"))
                           (snd (cleanup_stale_pids
                                   (with_scripts broken
                                      (sample (Holds [("linear", 12)]) [(12, server)]))))))))
    as H.
  cbv zeta in H.
  destruct H as (R & _ & _ & _ & _ & U); try reflexivity.
  destruct U as [F W]; [reflexivity|].
  repeat split; try assumption; reflexivity.
Defined.

(** C3 as stated fails: the store holds a stale record of linear, the jira
    script fails on import.  The failed start of jira has rewritten the
    store, without the stale record. *)
Lemma failed_start_rewrites_store :
  let w := with_scripts broken (sample (Holds [("linear", 12)]) []) in
  let r := start_service "jira" w in
  fst r = false
  /\ pid_file w = Holds [("linear", 12)]
  /\ pid_file (snd r) = Holds []
  /\ writes w = [] /\ writes (snd r) = [Wrote []].
Proof. vm_compute. repeat split. Qed.

(** C10.  save_pids has no exceptional outcome: when the PID file cannot
    be written it prints a warning and returns.  So a start whose child is
    alive after the grace interval reports success whatever the disk does.
    On a working disk the file then holds the new record; when [open]
    fails the file and the list of writes are as before the start, when
    the write fails the file is left unparsable, and in both cases the
    last two lines printed are the warning and the success message. *)
Theorem start_succeeds_unsaved
        (w : World) (service : string) (proc : Handle) (w1 : World) :
  fst (validate_service service w) = true ->
  get service (fst (cleanup_stale_pids w)) = None ->
  popen service (emit (Printed (MsgStarting service)) (snd (cleanup_stale_pids w)))
  = (inr proc, w1) ->
  alive (snd (time_sleep 1 w1)) (handle_pid proc) = true ->
  let r := start_service service w in
  let pids := set service (handle_pid proc) (fst (cleanup_stale_pids w)) in
  fst r = true
  /\ snd r = emit (Printed (MsgStarted service (handle_pid proc)))
               (snd (save_pids pids (snd (time_sleep 1 w1))))
  /\ match disk w with
     | DiskOk =>
         pid_file (snd r) = Holds pids
         /\ tracked (snd r) service = Some (handle_pid proc)
     | DiskOpenFails =>
         pid_file (snd r) = pid_file w /\ writes (snd r) = writes w
         /\ exists before,
              trace (snd r)
              = before ++ [Printed MsgSaveFailed;
                           Printed (MsgStarted service (handle_pid proc))]
     | DiskWriteFails =>
         pid_file (snd r) = Garbled /\ stored (snd r) = []
         /\ exists before,
              trace (snd r)
              = before ++ [Printed MsgSaveFailed;
                           Printed (MsgStarted service (handle_pid proc))]
     end.
Proof.
  intros V G P A. cbv zeta.
  rewrite (start_service_launches w service V G).
  rewrite (launch_survives service _ _ proc w1 P A). simpl fst. simpl snd.
  split; [reflexivity|]. split; [reflexivity|].
  destruct (popen_fields _ _ _ _ P) as (F1 & D1 & _ & _ & _ & W1 & _).
  simpl in F1, D1. rewrite writes_emit in W1. simpl in W1. rewrite app_nil_r in W1.
  pose proof (cleanup_frame w) as (Dc & _).
  pose proof (cleanup_spec w) as X. cbv zeta in X. destruct X as (Pc & _ & _ & X).
  assert (D2 : disk w1 = disk w) by congruence.
  unfold save_pids. simpl. rewrite D2.
  destruct (disk w) eqn:D; simpl.
  - split; [reflexivity|]. unfold tracked.
    erewrite stored_holds; [apply get_set_same| |reflexivity].
    apply set_nodup. rewrite Pc. apply live_entries_nodup.
  - assert (Fc : pid_file (snd (cleanup_stale_pids w)) = pid_file w
                 /\ writes (snd (cleanup_stale_pids w)) = writes w).
    { destruct (stale_entries w (stored w)); [exact X|]. apply X. }
    destruct Fc as [Fc Wc]. split; [congruence|]. split.
    + unfold writes in *. simpl. rewrite !filter_app. simpl. rewrite !app_nil_r.
      congruence.
    + exists (trace w1 ++ [Slept 1]). now rewrite <- app_assoc.
  - split; [reflexivity|]. split; [reflexivity|].
    exists ((trace w1 ++ [Slept 1]) ++ [Truncated]). now rewrite <- app_assoc.
Qed.

(** C10 at a concrete world: no PID file yet, and none can be created. *)
Lemma start_succeeds_unsaved_witness :
  let w := with_disk DiskOpenFails (sample Missing []) in
  let r := start_service "jira" w in
  fst (validate_service "jira" w) = true
  /\ fst r = true
  /\ pid_file (snd r) = Missing
  /\ tracked (snd r) "jira" = None
  /\ alive (snd r) 4312 = true
  /\ trace (snd r)
     = [Printed (MsgStarting "jira"); Spawned "jira" 4312; Slept 1;
        Printed MsgSaveFailed; Printed (MsgStarted "jira" 4312)].
Proof.
  cbv zeta.
  pose proof (start_succeeds_unsaved
                (with_disk DiskOpenFails (sample Missing []))
                "jira" (mkHandle 4312 "")
                (snd (popen "jira"
                        (emit (Printed (MsgStarting "jira"))
                           (snd (cleanup_stale_pids
                                   (with_disk DiskOpenFails (sample Missing []))))))))
    as H.
  cbv zeta in H.
  destruct H as (R & _ & F & _); try reflexivity.
  repeat split; try assumption; reflexivity.
Defined.

(** C7, as amended.  Let [s] be tracked with pid [p], on a working disk,
    with [p] (while it runs) a process the controller may signal, and let
    the system not give the pid [p] to the next process it starts.  When
    restart reports success, [s] is tracked with the pid of the process
    the restart has launched, which is not [p]. *)
Theorem restart_tracks_new_pid (w : World) (s : string) (graceful : bool) (p : Z) :
  tracked w s = Some p ->
  disk w = DiskOk ->
  (forall pr, procs w p = Some pr -> may_signal pr = true) ->
  hd_error (pid_supply w) <> Some p ->
  fst (restart s graceful w) = true ->
  exists q, tracked (snd (restart s graceful w)) s = Some q
            /\ q <> p
            /\ hd_error (pid_supply w) = Some q.
Proof.
  intros T D Hs Hq R. rewrite restart_eq in R |- *.
  set (w0 := emit (Printed (MsgRestarting s)) w) in *.
  assert (Hs0 : forall pid pr, tracked w0 s = Some pid -> procs w0 pid = Some pr ->
                               may_signal pr = true).
  { intros pid pr T0 P0. apply (Hs pr).
    unfold tracked in T0. rewrite (stored_same_file w w0 eq_refl) in T0.
    unfold tracked in T. assert (pid = p) by congruence. subst. exact P0. }
  destruct (stop_service_untracks w0 s graceful D Hs0)
    as (_ & U1 & D1 & _ & _ & _ & Y1).
  set (w1 := snd (stop_service s graceful w0)) in *.
  set (w2 := snd (time_sleep 1 w1)) in *.
  assert (U2 : tracked w2 s = None).
  { unfold tracked. rewrite (stored_same_file w1 w2 eq_refl). exact U1. }
  change (disk w0) with (disk w) in D1.
  change (pid_supply w0) with (pid_supply w) in Y1.
  assert (D2 : disk w2 = DiskOk) by (unfold w2; simpl; congruence).
  destruct (fst (validate_service s w2)) eqn:V.
  - assert (G : get s (fst (cleanup_stale_pids w2)) = None).
    { rewrite <- cleanup_stored by exact D2. apply cleanup_keeps_untracked, U2. }
    rewrite (start_service_launches w2 s V G) in R |- *.
    pose proof (cleanup_frame w2) as (Dc & _ & _ & _ & _ & Yc & _).
    pose proof (cleanup_spec w2) as X. cbv zeta in X. destruct X as (Pc & _).
    destruct (launch_true_records s (fst (cleanup_stale_pids w2))
                (snd (cleanup_stale_pids w2))) as (q & Sq & Tq).
    + rewrite Pc. apply live_entries_nodup.
    + congruence.
    + exact R.
    + assert (Sw : hd_error (pid_supply w) = Some q).
      { rewrite Yc in Sq. simpl in Sq. rewrite Y1 in Sq. exact Sq. }
      exists q. split; [exact Tq|]. split; [congruence|exact Sw].
  - rewrite (start_service_invalid w2 s V) in R. discriminate.
Qed.

(** C7 at a concrete world: jira runs as pid 10 and is restarted as 4312. *)
Lemma restart_tracks_new_pid_witness :
  let w := sample (Holds [("jira", 10)]) [(10, server)] in
  tracked w "jira" = Some 10
  /\ fst (restart "jira" false w) = true
  /\ exists q, tracked (snd (restart "jira" false w)) "jira" = Some q
               /\ q <> 10 /\ hd_error (pid_supply w) = Some q.
Proof.
  cbv zeta. split; [reflexivity|]. split; [reflexivity|].
  apply (restart_tracks_new_pid
           (sample (Holds [("jira", 10)]) [(10, server)]) "jira" false 10).
  - reflexivity.
  - reflexivity.
  - intros pr P. vm_compute in P. injection P as <-. reflexivity.
  - vm_compute. discriminate.
  - reflexivity.
Defined.

(** C7 as stated fails: jira is tracked as pid 11, a process of another
    user.  The stop step fails and leaves the record, the start step finds
    the service running and reports success: the restart succeeds and jira
    is tracked with the pid it had. *)
Lemma restart_keeps_foreign_pid :
  let w := sample (Holds [("jira", 11)]) [(11, foreign)] in
  tracked w "jira" = Some 11
  /\ fst (restart "jira" false w) = true
  /\ tracked (snd (restart "jira" false w)) "jira" = Some 11
  /\ trace (snd (restart "jira" false w))
     = [Printed (MsgRestarting "jira"); Printed (MsgStopFailed "jira"); Slept 1;
        Printed (MsgAlreadyRunning "jira" 11)].
Proof. vm_compute. repeat split. Qed.

Section Registry.

Lemma store_untouched_print m w : store_untouched w (emit (Printed m) w).
Proof.
  unfold store_untouched. rewrite writes_emit, signals_emit. simpl.
  rewrite !app_nil_r. repeat split.
Qed.

Lemma store_untouched_trans w1 w2 w3 :
  store_untouched w1 w2 -> store_untouched w2 w3 -> store_untouched w1 w3.
Proof.
  unfold store_untouched. intros (A & B & C & D & E) (A' & B' & C' & D' & E').
  repeat split; congruence.
Qed.

(** start_service refuses a name that is not in SERVICES before it loads
    the store. *)
Lemma start_service_unregistered w name :
  in_list name SERVICES = false ->
  start_service name w
  = (false, emit (Printed (MsgAvailable SERVICES))
              (emit (Printed (MsgUnknownService name)) w)).
Proof.
  intros H. unfold start_service, validate_service. rewrite H. reflexivity.
Qed.

(** The routing of main refuses it for every command that takes a target. *)
Lemma route_unregistered cmd name on_all on_one w :
  in_list name SERVICES = false -> name <> "all" ->
  route cmd (Some name) on_all on_one w
  = (false, emit (Printed (if nonempty name then MsgUnknownService name
                           else MsgSpecify cmd)) w).
Proof.
  intros H N. unfold route.
  destruct (String.eqb name "all") eqn:E.
  - apply String.eqb_eq in E. contradiction.
  - rewrite H, andb_false_r. destruct (nonempty name); reflexivity.
Qed.

End Registry.

(** C1, as amended.  For a name that is not in SERVICES: start_service
    returns failure after two lines of output, and the command routing of
    main (for start, stop, restart and graceful, the name not being the
    word "all") exits with code 1 after one line of output; in both cases
    the PID file is not written, no signal is sent and no process is
    started.  stop_service itself does not look the name up in SERVICES:
    it runs the cleanup of stale entries, and when the name has no live
    record it reports success. *)
Theorem unregistered_name_rejected (w : World) (name : string) :
  in_list name SERVICES = false ->
  (fst (start_service name w) = false
   /\ store_untouched w (snd (start_service name w)))
  /\ (forall cmd,
        name <> "all" -> In cmd ["start"; "stop"; "restart"; "graceful"] ->
        fst (main_route cmd (Some name) w) = 1
        /\ store_untouched w (snd (main_route cmd (Some name) w)))
  /\ (forall graceful,
        get name (fst (cleanup_stale_pids w)) = None ->
        stop_service name graceful w
        = (true, emit (Printed (MsgNotRunning name)) (snd (cleanup_stale_pids w)))).
Proof.
  intros H. split; [|split].
  - rewrite (start_service_unregistered w name H). simpl. split; [reflexivity|].
    eapply store_untouched_trans; apply store_untouched_print.
  - intros cmd N C.
    assert (R : forall on_all on_one,
               (success <- route cmd (Some name) on_all on_one ;;
                ret (if success then 0 else 1)) w
               = (1, emit (Printed (if nonempty name then MsgUnknownService name
                                    else MsgSpecify cmd)) w)).
    { intros. unfold bind. rewrite (route_unregistered cmd name _ _ w H N).
      reflexivity. }
    simpl in C.
    destruct C as [<-|[<-|[<-|[<-|[]]]]]; unfold main_route; simpl String.eqb;
      cbv iota; rewrite R; simpl; (split; [reflexivity|apply store_untouched_print]).
  - intros graceful G. apply stop_service_no_record, G.
Qed.

(** C1 at a concrete world: ghost is not a service; jira runs as pid 10
    and the store holds a stale record of linear. *)
Lemma unregistered_name_rejected_witness :
  let w := sample (Holds [("jira", 10); ("linear", 12)]) [(10, server)] in
  in_list "ghost" SERVICES = false
  /\ fst (start_service "ghost" w) = false
  /\ pid_file (snd (start_service "ghost" w)) = pid_file w
  /\ fst (main_route "stop" (Some "ghost") w) = 1
  /\ pid_file (snd (main_route "stop" (Some "ghost") w)) = pid_file w.
Proof.
  cbv zeta.
  destruct (unregistered_name_rejected
              (sample (Holds [("jira", 10); ("linear", 12)]) [(10, server)]) "ghost")
    as ((S1 & S2) & M & _); [reflexivity|].
  destruct (M "stop") as (M1 & M2); [discriminate|simpl; auto|].
  split; [reflexivity|]. split; [exact S1|]. split; [apply S2|].
  split; [exact M1|apply M2].
Defined.

(** C1 as stated fails for stop and restart: ghost is not a service and the
    store holds a stale record of linear.  stop_service "ghost" reports
    success and has rewritten the store; restart "ghost" reports failure
    but has rewritten the store as well. *)
Lemma unregistered_stop_succeeds_and_writes :
  let w := sample (Holds [("jira", 10); ("linear", 12)]) [(10, server)] in
  in_list "ghost" SERVICES = false
  /\ fst (stop_service "ghost" false w) = true
  /\ pid_file (snd (stop_service "ghost" false w)) = Holds [("jira", 10)]
  /\ writes (snd (stop_service "ghost" false w)) = [Wrote [("jira", 10)]]
  /\ fst (restart "ghost" true w) = false
  /\ writes (snd (restart "ghost" true w)) = [Wrote [("jira", 10)]].
Proof. vm_compute. repeat split. Qed.

Section Batch.

Variable op : string -> M bool.

(** The counting loop visits every service and counts the successes. *)
Lemma count_successes_run_each services : forall n w,
  count_successes op services n w
  = ((n + count_true (fst (run_each op services w)))%nat,
     snd (run_each op services w)).
Proof.
  induction services as [|s rest IH]; simpl; intros n w.
  - unfold ret, count_true. simpl. now rewrite Nat.add_0_r.
  - unfold bind, ret.
    destruct (op s w) as [ok w1]. rewrite IH.
    destruct (run_each op rest w1) as [oks w2]. simpl.
    destruct ok; unfold count_true; simpl; [|reflexivity].
    now rewrite Nat.add_succ_r.
Qed.

Lemma run_each_length services : forall w,
  length (fst (run_each op services w)) = length services.
Proof.
  induction services as [|s rest IH]; simpl; intros w; [reflexivity|].
  unfold bind. destruct (op s w) as [ok w1]. specialize (IH w1).
  destruct (run_each op rest w1) as [oks w2]. simpl in *. now rewrite IH.
Qed.

Lemma count_true_all oks :
  Nat.eqb (count_true oks) (length oks) = forallb id oks.
Proof.
  unfold count_true.
  assert (L : forall l : list bool, (length (filter id l) <= length l)%nat).
  { induction l as [|b l IH]; simpl; [lia|]. destruct b; simpl; lia. }
  induction oks as [|b oks IH]; simpl; [reflexivity|].
  destruct b; simpl; [exact IH|].
  apply Nat.eqb_neq. specialize (L oks). lia.
Qed.

End Batch.

Section BatchEquations.

Lemma start_all_eq w :
  start_all w
  = let r := run_each start_service SERVICES
               (emit (Printed (MsgStartingAll SERVICES)) w) in
    (forallb id (fst r),
     emit (Printed (MsgStartedCount (count_true (fst r)) (length SERVICES))) (snd r)).
Proof.
  unfold start_all, bind at 1, print at 1. unfold bind at 1.
  rewrite count_successes_run_each. cbv zeta. unfold bind, print, ret.
  rewrite <- count_true_all, run_each_length. reflexivity.
Qed.

Lemma stop_all_eq graceful w :
  stop_all graceful w
  = let pids := fst (cleanup_stale_pids w) in
    let wc := snd (cleanup_stale_pids w) in
    let r := run_each (fun s => stop_service s graceful) (keys pids)
               (emit (Printed (MsgStoppingAll (keys pids))) wc) in
    (forallb id (fst r),
     match pids with
     | [] => emit (Printed MsgNoServicesRunning) wc
     | _ :: _ =>
         emit (Printed (MsgStoppedCount (count_true (fst r)) (length pids))) (snd r)
     end).
Proof.
  unfold stop_all, bind at 1. destruct (cleanup_stale_pids w) as [pids wc].
  cbv zeta. simpl fst. simpl snd. destruct pids as [|e pids]; [reflexivity|].
  unfold bind at 1, print at 1. unfold bind at 1.
  rewrite count_successes_run_each. unfold bind, print, ret.
  rewrite <- count_true_all, run_each_length. unfold keys. rewrite length_map.
  reflexivity.
Qed.

Lemma restart_all_eq graceful w :
  restart_all graceful w
  = start_all (snd (time_sleep 2
                      (snd (stop_all graceful (emit (Printed MsgRestartingAll) w))))).
Proof.
  unfold restart_all, bind, print.
  destruct (stop_all graceful _) as [r1 w1]. reflexivity.
Qed.

End BatchEquations.

(** C4, as amended.  start_all applies start_service to each service of
    SERVICES, in the order of the list, each in the world the one before
    left; a failure does not stop the loop (there is one outcome per
    service), and start_all succeeds exactly when every outcome is a
    success.  stop_all does the same with stop_service over the names the
    PID store holds after the cleanup, in the order of the store, not over
    SERVICES; with no name in the store it succeeds at once.  restart_all
    is stop_all, two seconds of sleep, then start_all, and its result is
    the result of start_all alone. *)
Theorem batch_operations (w : World) (graceful : bool) :
  (let r := run_each start_service SERVICES
              (emit (Printed (MsgStartingAll SERVICES)) w) in
   length (fst r) = length SERVICES
   /\ fst (start_all w) = forallb id (fst r)
   /\ snd (start_all w)
      = emit (Printed (MsgStartedCount (count_true (fst r)) (length SERVICES))) (snd r))
  /\ (let pids := fst (cleanup_stale_pids w) in
      let wc := snd (cleanup_stale_pids w) in
      let r := run_each (fun s => stop_service s graceful) (keys pids)
                 (emit (Printed (MsgStoppingAll (keys pids))) wc) in
      length (fst r) = length pids
      /\ fst (stop_all graceful w) = forallb id (fst r)
      /\ snd (stop_all graceful w)
         = match pids with
           | [] => emit (Printed MsgNoServicesRunning) wc
           | _ :: _ =>
               emit (Printed (MsgStoppedCount (count_true (fst r)) (length pids)))
                    (snd r)
           end)
  /\ restart_all graceful w
     = start_all (snd (time_sleep 2
                         (snd (stop_all graceful (emit (Printed MsgRestartingAll) w))))).
Proof.
  split; [|split].
  - cbv zeta. rewrite start_all_eq. cbv zeta.
    split; [apply run_each_length|]. split; reflexivity.
  - cbv zeta. rewrite stop_all_eq. cbv zeta.
    split; [|split; reflexivity].
    rewrite run_each_length. unfold keys. apply length_map.
  - apply restart_all_eq.
Qed.

(** C4 as stated fails for stop_all: the store tracks slack, which is not
    in SERVICES, as pid 11, a process of another user.  stop_service
    succeeds for every service of the registry (none is tracked), so the
    batch over the registry succeeds; stop_all stops slack instead, and
    fails.  It fails for restart_all too: with jira tracked as such a
    process, stop_all fails within restart_all, which reports success. *)
Lemma stop_all_is_not_over_registry :
  let w := sample (Holds [("slack", 11)]) [(11, foreign)] in
  let v := sample (Holds [("jira", 11)]) [(11, foreign)] in
  fst (batch_over_registry (fun s => stop_service s false) w) = true
  /\ fst (stop_all false w) = false
  /\ fst (stop_all false (emit (Printed MsgRestartingAll) v)) = false
  /\ fst (restart_all false v) = true.
Proof. vm_compute. repeat split. Qed.

Section Alike.

Lemma alike_emit e w1 w2 : alike w1 w2 -> alike (emit e w1) (emit e w2).
Proof.
  unfold alike, quiet. intros (A & B & C & D & E & F & G & H). simpl.
  rewrite !filter_app, H. repeat split; assumption.
Qed.

Lemma alike_with_procs f w1 w2 :
  alike w1 w2 -> alike (with_procs (f (procs w1)) w1) (with_procs (f (procs w2)) w2).
Proof.
  unfold alike. intros (A & B & C & D & E & F & G & H). simpl.
  rewrite E. repeat split; assumption.
Qed.

Lemma alike_set_procs ps w1 w2 :
  alike w1 w2 -> alike (with_procs ps w1) (with_procs ps w2).
Proof.
  unfold alike. intros (A & B & C & D & E & F & G & H). simpl.
  repeat split; assumption.
Qed.

Lemma respects_ret {A} (a : A) : respects (ret a).
Proof. intros w1 w2 H. split; [reflexivity|exact H]. Qed.

Lemma respects_bind {A B} (m : M A) (f : A -> M B) :
  respects m -> (forall a, respects (f a)) -> respects (bind m f).
Proof.
  intros Hm Hf w1 w2 H. unfold bind.
  destruct (Hm w1 w2 H) as [E H'].
  destruct (m w1) as [a1 w1'], (m w2) as [a2 w2']. simpl in *. subst.
  apply Hf, H'.
Qed.

Lemma respects_print m : respects (print m).
Proof. intros w1 w2 H. split; [reflexivity|]. apply alike_emit, H. Qed.

Lemma respects_load_pids : respects load_pids.
Proof.
  intros w1 w2 H. pose proof H as (A & _). unfold load_pids.
  assert (W : alike (emit (Printed MsgCorruptedPidFile) w1) w2
              /\ alike w1 (emit (Printed MsgCorruptedPidFile) w2)).
  { unfold alike, quiet in *. simpl. rewrite !filter_app. simpl.
    rewrite !app_nil_r. auto. }
  destruct W as [W1 W2].
  pose proof (alike_emit (Printed MsgCorruptedPidFile) w1 w2 H) as W3.
  destruct (pid_file w1), (pid_file w2); simpl in A;
    try (injection A as A; subst); simpl; split; try reflexivity; assumption.
Qed.

Lemma respects_save_pids d : respects (save_pids d).
Proof.
  intros w1 w2 H. pose proof H as (A & B & C & D & E & F & G & I).
  unfold save_pids. rewrite B.
  destruct (disk w2) eqn:K; simpl; (split; [reflexivity|]).
  - apply alike_emit. unfold alike. simpl. repeat split; congruence.
  - apply alike_emit, H.
  - apply alike_emit, alike_emit. unfold alike. simpl. repeat split; congruence.
Qed.

Lemma respects_is_process_running pid : respects (is_process_running pid).
Proof.
  intros w1 w2 H. rewrite !is_process_running_alive. simpl.
  split; [|exact H]. unfold alive. destruct H as (_ & _ & _ & _ & E & _).
  now rewrite E.
Qed.

Lemma respects_time_sleep n : respects (time_sleep n).
Proof.
  intros w1 w2 H. unfold time_sleep. simpl. split; [reflexivity|].
  apply alike_emit, (alike_with_procs (elapse n)), H.
Qed.

Lemma respects_os_kill pid sig : respects (os_kill pid sig).
Proof.
  intros w1 w2 H. pose proof H as (_ & _ & _ & _ & E & _).
  unfold os_kill. rewrite E.
  destruct (procs w2 pid) as [pr|]; [|split; [reflexivity|exact H]].
  destruct (may_signal pr); simpl; (split; [reflexivity|]); [|exact H].
  apply alike_emit, alike_set_procs, H.
Qed.

Lemma respects_popen s : respects (popen s).
Proof.
  intros w1 w2 H. pose proof H as (A & B & C & D & E & F & G & I).
  unfold popen. rewrite F, G, C, E.
  destruct (popen_error w2) eqn:K1; [split; [reflexivity|exact H]|].
  destruct (pid_supply w2) as [|pid rest] eqn:K2; [split; [reflexivity|exact H]|].
  simpl. split; [reflexivity|].
  apply alike_emit. unfold alike. simpl. repeat split; congruence.
Qed.

Lemma respects_still_running proc : respects (still_running proc).
Proof.
  intros w1 w2 H. unfold still_running. simpl. split; [|exact H].
  unfold alive. destruct H as (_ & _ & _ & _ & E & _). now rewrite E.
Qed.

Lemma respects_lift {A} (m : M A) : respects m -> respects (lift m).
Proof.
  intros Hm w1 w2 H. unfold lift. destruct (Hm w1 w2 H) as [E H'].
  destruct (m w1) as [a1 w1'], (m w2) as [a2 w2']. simpl in *. subst. auto.
Qed.

Lemma respects_bindT {A B} (m : T A) (f : A -> T B) :
  respects m -> (forall a, respects (f a)) -> respects (bindT m f).
Proof.
  intros Hm Hf w1 w2 H. unfold bindT. destruct (Hm w1 w2 H) as [E H'].
  destruct (m w1) as [a1 w1'], (m w2) as [a2 w2']. simpl in *. subst.
  destruct a2 as [e|a]; [split; [reflexivity|exact H']|]. apply Hf, H'.
Qed.

End Alike.

Section Respects.

Create HintDb resp discriminated.

#[local] Hint Resolve respects_ret respects_print respects_load_pids
  respects_save_pids respects_is_process_running respects_time_sleep
  respects_os_kill respects_popen respects_still_running : resp.

(** Follow the structure of a computation: its known parts by the lemmas
    of the database, a bind by its two sides, a branch by its cases. *)
Ltac resp :=
  repeat first
    [ solve [auto 3 with resp nocore]
    | match goal with
      | |- respects (lift _) => apply respects_lift
      | |- respects (bind _ _) => apply respects_bind; [|intros ?]
      | |- respects (bindT _ _) => apply respects_bindT; [|intros ?]
      | |- respects (if ?b then _ else _) => destruct b
      | |- respects (match ?x with _ => _ end) => destruct x
      end ].

Lemma respects_path_exists s :
  respects (fun w => (server_path_exists s w, w)).
Proof.
  intros w1 w2 H. simpl. split; [|exact H].
  unfold server_path_exists. destruct H as (_ & _ & C & _). now rewrite C.
Qed.

Lemma respects_validate_service s : respects (validate_service s).
Proof.
  unfold validate_service. destruct (negb (in_list s SERVICES)); [resp|].
  apply respects_bind; [apply respects_path_exists|intros ok]. resp.
Qed.

Lemma respects_collect_stale items : respects (collect_stale items).
Proof. induction items as [|[s pid] items IH]; simpl; resp. Qed.

Lemma respects_drop_stale stale : forall pids, respects (drop_stale stale pids).
Proof. induction stale as [|s stale IH]; simpl; intros pids; resp. Qed.

#[local] Hint Resolve respects_validate_service respects_collect_stale
  respects_drop_stale : resp.

Lemma respects_cleanup_stale_pids : respects cleanup_stale_pids.
Proof. unfold cleanup_stale_pids. resp. Qed.

Lemma respects_launch s pids : respects (launch s pids).
Proof. unfold launch. resp. Qed.

#[local] Hint Resolve respects_cleanup_stale_pids respects_launch : resp.

Lemma respects_start_with s pids : respects (start_with s pids).
Proof. unfold start_with. resp. Qed.

#[local] Hint Resolve respects_start_with : resp.

Lemma respects_start_service s : respects (start_service s).
Proof. unfold start_service. resp. Qed.

Lemma respects_stop_try s graceful pid pids : respects (stop_try s graceful pid pids).
Proof. unfold stop_try. resp. Qed.

#[local] Hint Resolve respects_start_service respects_stop_try : resp.

Lemma respects_stop_with s graceful pids : respects (stop_with s graceful pids).
Proof. unfold stop_with. resp. Qed.

#[local] Hint Resolve respects_stop_with : resp.

Lemma respects_stop_service s graceful : respects (stop_service s graceful).
Proof. unfold stop_service. resp. Qed.

Lemma respects_count_successes op services :
  (forall s, respects (op s)) -> forall n, respects (count_successes op services n).
Proof.
  intros Hop. induction services as [|s rest IH]; simpl; intros n; resp.
Qed.

Lemma respects_print_rows items : respects (print_rows items).
Proof. induction items as [|[s pid] items IH]; simpl; resp. Qed.

#[local] Hint Resolve respects_stop_service respects_count_successes
  respects_print_rows : resp.

Lemma respects_start_all : respects start_all.
Proof. unfold start_all. resp. Qed.

Lemma respects_stop_all graceful : respects (stop_all graceful).
Proof. unfold stop_all. resp. Qed.

Lemma respects_status : respects status.
Proof. unfold status. resp. Qed.

Lemma respects_restart s graceful : respects (restart s graceful).
Proof. unfold restart. resp. Qed.

#[local] Hint Resolve respects_start_all respects_stop_all respects_status
  respects_restart : resp.

Lemma respects_restart_all graceful : respects (restart_all graceful).
Proof. unfold restart_all. resp. Qed.

Lemma respects_route cmd target on_all on_one :
  respects on_all -> (forall s, respects (on_one s)) ->
  respects (route cmd target on_all on_one).
Proof. intros Ha Ho. unfold route. resp. Qed.

#[local] Hint Resolve respects_restart_all respects_route : resp.

Lemma respects_main_route cmd target : respects (main_route cmd target).
Proof. unfold main_route. resp. Qed.

(** A world whose PID file cannot be read is like the same world with a
    PID file that holds the empty mapping. *)
Lemma unusable_alike_empty w :
  unusable (pid_file w) = true -> alike w (with_file (Holds []) w).
Proof.
  intros U. unfold alike. simpl.
  destruct (pid_file w); try discriminate; repeat split.
Qed.

End Respects.

(** C8, as amended.  When the PID file is absent, or is present and
    [open] raises IOError, or is present and json.load raises
    JSONDecodeError (the three cases [unusable] selects, the ones
    load_pids has a branch for), load_pids returns the empty mapping; it
    prints the warning when the file is present, and nothing when it is
    absent.  Every command of the controller, and start_service,
    stop_service and restart on their own, then return what they return on
    a store that holds the empty mapping, and leave a world that differs
    from the one they leave there at most in how the PID file fails to be
    read and in the warnings about it.  The statement is about these
    three cases only: it says nothing of a file on which json.load raises
    another exception or returns a value that is not a mapping. *)
Theorem unusable_store_reads_as_empty (w : World) :
  unusable (pid_file w) = true ->
  let empty := with_file (Holds []) w in
  load_pids w
  = ([], if present (pid_file w) then emit (Printed MsgCorruptedPidFile) w else w)
  /\ (forall cmd target,
        fst (main_route cmd target w) = fst (main_route cmd target empty)
        /\ alike (snd (main_route cmd target w)) (snd (main_route cmd target empty)))
  /\ (forall s,
        fst (start_service s w) = fst (start_service s empty)
        /\ alike (snd (start_service s w)) (snd (start_service s empty)))
  /\ (forall s graceful,
        fst (stop_service s graceful w) = fst (stop_service s graceful empty)
        /\ alike (snd (stop_service s graceful w)) (snd (stop_service s graceful empty)))
  /\ (forall s graceful,
        fst (restart s graceful w) = fst (restart s graceful empty)
        /\ alike (snd (restart s graceful w)) (snd (restart s graceful empty))).
Proof.
  intros U. cbv zeta. pose proof (unusable_alike_empty w U) as A.
  split; [|split; [|split; [|split]]].
  - unfold load_pids. destruct (pid_file w); try discriminate; reflexivity.
  - intros cmd target. apply respects_main_route, A.
  - intros s. apply respects_start_service, A.
  - intros s graceful. apply respects_stop_service, A.
  - intros s graceful. apply respects_restart, A.
Qed.

(** C8 at a concrete world: the PID file is not JSON; jira is started as
    on an empty store, after the warning. *)
Lemma unusable_store_reads_as_empty_witness :
  let w := sample Garbled [] in
  unusable (pid_file w) = true
  /\ load_pids w = ([], emit (Printed MsgCorruptedPidFile) w)
  /\ fst (main_route "start" (Some "jira") w) = 0
  /\ fst (main_route "start" (Some "jira") (with_file (Holds []) w)) = 0
  /\ pid_file (snd (main_route "start" (Some "jira") w)) = Holds [("jira", 4312)].
Proof.
  cbv zeta.
  destruct (unusable_store_reads_as_empty (sample Garbled [])) as (L & M & _);
    [reflexivity|].
  destruct (M "start" (Some "jira")) as [R _].
  split; [reflexivity|]. split; [exact L|]. split; [|split; reflexivity].
  rewrite R. reflexivity.
Defined.

(** C8 as stated fails for an absent file: load_pids returns the empty
    mapping and prints nothing. *)
Lemma load_pids_absent_file_is_silent :
  let w := sample Missing [] in
  pid_file w = Missing
  /\ fst (load_pids w) = []
  /\ trace (snd (load_pids w)) = trace w
  /\ ~ In (Printed MsgCorruptedPidFile) (trace (snd (load_pids w))).
Proof.
  cbv zeta. simpl. repeat split. intros [].
Qed.

Section Overlap.

(** The two halves, one after the other, are start_service. *)
Lemma start_service_split service w :
  start_service service w
  = (loaded <- start_load service ;; start_finish service loaded) w.
Proof.
  unfold start_service, start_load, start_finish, bind.
  destruct (validate_service service w) as [ok wv]. destruct ok; simpl.
  - destruct (cleanup_stale_pids wv) as [pids wc]. reflexivity.
  - reflexivity.
Qed.





End Overlap.




(** ** The scenario of the specification

    The store starts empty.  A start of jira records pid 4312; the system
    then ends that process behind the controller's back; the next status
    finds the record stale and persists the empty mapping. *)
Example scenario_start_then_external_kill :
  let w0 := sample (Holds []) [] in
  let w1 := snd (start_service "jira" w0) in
  let w2 := with_procs (table []) w1 in
  let w3 := snd (status w2) in
  pid_file w1 = Holds [("jira", 4312)]
  /\ alive w1 4312 = true
  /\ pid_file w3 = Holds []
  /\ trace w3
     = trace w1 ++ [Printed (MsgCleaningStale "jira"); Wrote [];
                    Printed MsgStatusHeader; Printed MsgNoServicesRunning;
                    Printed (MsgAvailable SERVICES)].
Proof. vm_compute. repeat split. Qed.

(** ** Further properties of the wrapper *)

Section StoreFacts.

Lemma live_entries_idem w d :
  live_entries w (live_entries w d) = live_entries w d
  /\ stale_entries w (live_entries w d) = [].
Proof.
  unfold live_entries, stale_entries.
  induction d as [|[k v] d [IH1 IH2]]; simpl; [auto|].
  destruct (alive w v) eqn:A; simpl; rewrite ?A; simpl; [|auto].
  now rewrite IH1, IH2.
Qed.

Lemma live_entries_same_procs w w' d :
  procs w' = procs w ->
  live_entries w' d = live_entries w d /\ stale_entries w' d = stale_entries w d.
Proof.
  intros P. unfold live_entries, stale_entries, alive. now rewrite P.
Qed.

Lemma del_absent k d : get k d = None -> del k d = d.
Proof.
  induction d as [|[k' v'] d IH]; simpl; [reflexivity|].
  destruct (String.eqb k k'); [discriminate|]. intros H. now rewrite IH.
Qed.

Lemma start_service_no_script w s :
  in_list s SERVICES = true -> server_path_exists s w = false ->
  start_service s w = (false, emit (Printed (MsgScriptNotFound s)) w).
Proof.
  intros R E. unfold start_service, validate_service. rewrite R. simpl.
  unfold bind at 1. unfold bind at 1. rewrite E. reflexivity.
Qed.

End StoreFacts.

(** X2.  On a working disk, a mapping saved by save_pids is the mapping
    load_pids returns next, entry for entry and in the same order, after
    exactly one write and no warning. *)
Theorem save_then_load (w : World) (pids : dict) :
  disk w = DiskOk ->
  NoDup (keys pids) ->
  load_pids (snd (save_pids pids w)) = (pids, snd (save_pids pids w))
  /\ trace (snd (save_pids pids w)) = trace w ++ [Wrote pids].
Proof.
  intros D N. unfold save_pids. rewrite D. simpl. split; [|reflexivity].
  unfold load_pids. simpl. now rewrite (of_items_id pids N).
Qed.

Lemma save_then_load_witness :
  let w := sample Missing [] in
  let d := [("jira", 4312); ("observe", 4313)] in
  load_pids (snd (save_pids d w)) = (d, snd (save_pids d w))
  /\ trace (snd (save_pids d w)) = trace w ++ [Wrote d].
Proof.
  cbv zeta.
  apply (save_then_load (sample Missing []) [("jira", 4312); ("observe", 4313)]).
  - reflexivity.
  - repeat constructor; simpl; intuition discriminate.
Defined.

(** X3.  On a working disk the cleanup is idempotent: a second
    cleanup_stale_pids, run in the world the first one left, returns the
    same mapping, finds nothing stale and does not write the PID file. *)
Theorem cleanup_stale_pids_idempotent (w : World) :
  disk w = DiskOk ->
  let r1 := cleanup_stale_pids w in
  let r2 := cleanup_stale_pids (snd r1) in
  fst r2 = fst r1
  /\ stale_entries (snd r1) (stored (snd r1)) = []
  /\ pid_file (snd r2) = pid_file (snd r1)
  /\ writes (snd r2) = writes (snd r1).
Proof.
  intros D. cbv zeta.
  pose proof (cleanup_stored w D) as S.
  destruct (cleanup_spec w) as (P & _ & Pr & _).
  destruct (cleanup_spec (snd (cleanup_stale_pids w))) as (P2 & _ & _ & X).
  destruct (live_entries_same_procs w (snd (cleanup_stale_pids w))
              (fst (cleanup_stale_pids w)) Pr) as [L1 L2].
  destruct (live_entries_idem w (stored w)) as [I1 I2].
  assert (E : stale_entries (snd (cleanup_stale_pids w))
                (stored (snd (cleanup_stale_pids w))) = []).
  { rewrite S, L2, P. exact I2. }
  rewrite E in X. split; [|split; [exact E|exact X]].
  rewrite P2, S, L1, P. exact I1.
Qed.

Lemma cleanup_stale_pids_idempotent_witness :
  let w := sample (Holds [("jira", 10); ("linear", 12)]) [(10, server)] in
  let r1 := cleanup_stale_pids w in
  let r2 := cleanup_stale_pids (snd r1) in
  fst r1 = [("jira", 10)]
  /\ fst r2 = fst r1
  /\ writes (snd r2) = [Wrote [("jira", 10)]].
Proof.
  cbv zeta.
  destruct (cleanup_stale_pids_idempotent
              (sample (Holds [("jira", 10); ("linear", 12)]) [(10, server)]) eq_refl)
    as (A & _ & _ & W).
  split; [reflexivity|]. split; [exact A|]. rewrite W. reflexivity.
Defined.

(** X4.  A start of a valid service that has a live record does nothing
    but report it: start_service returns success with the recorded pid
    still alive, spawns no process, takes no pid from the system, does
    not sleep and writes nothing beyond the cleanup. *)
Theorem start_service_already_running (w : World) (s : string) (pid : Z) :
  fst (validate_service s w) = true ->
  get s (fst (cleanup_stale_pids w)) = Some pid ->
  start_service s w
  = (true, emit (Printed (MsgAlreadyRunning s pid)) (snd (cleanup_stale_pids w)))
  /\ alive w pid = true
  /\ procs (snd (start_service s w)) = procs w
  /\ pid_supply (snd (start_service s w)) = pid_supply w
  /\ writes (snd (start_service s w)) = writes (snd (cleanup_stale_pids w)).
Proof.
  intros V G.
  assert (E : start_service s w
              = (true, emit (Printed (MsgAlreadyRunning s pid))
                         (snd (cleanup_stale_pids w)))).
  { unfold start_service, bind at 1. rewrite (validate_service_true w s V).
    simpl. unfold bind at 1.
    pose proof (start_with_live w s pid G) as L.
    destruct (cleanup_stale_pids w) as [pids wc]. exact L. }
  destruct (cleanup_spec w) as (_ & Q & _).
  destruct (cleanup_frame w) as (_ & _ & _ & Pr & _ & Y & _).
  rewrite E. simpl. split; [reflexivity|]. split; [apply (proj1 (Q s pid) G)|].
  split; [exact Pr|]. split; [exact Y|].
  rewrite writes_emit. simpl. now rewrite app_nil_r.
Qed.

Lemma start_service_already_running_witness :
  let w := sample (Holds [("jira", 10)]) [(10, server)] in
  fst (start_service "jira" w) = true
  /\ trace (snd (start_service "jira" w)) = [Printed (MsgAlreadyRunning "jira" 10)]
  /\ pid_supply (snd (start_service "jira" w)) = pid_supply w.
Proof.
  cbv zeta.
  destruct (start_service_already_running
              (sample (Holds [("jira", 10)]) [(10, server)]) "jira" 10
              eq_refl eq_refl) as (E & _ & _ & Y & _).
  rewrite E. simpl. split; [reflexivity|]. split; [reflexivity|].
  rewrite E in Y. exact Y.
Defined.

(** X5.  When the script of a registered service is not on disk,
    start_service fails after one line of output and touches nothing;
    restart, which stops first and validates after, then leaves the
    service stopped: on a working disk, with a process it may signal,
    restart returns failure and the service has no record any more. *)
Theorem missing_script_start_and_restart (w : World) (s : string) (graceful : bool) :
  in_list s SERVICES = true ->
  server_path_exists s w = false ->
  start_service s w = (false, emit (Printed (MsgScriptNotFound s)) w)
  /\ (disk w = DiskOk ->
      (forall pid pr, tracked w s = Some pid -> procs w pid = Some pr ->
                      may_signal pr = true) ->
      fst (restart s graceful w) = false
      /\ tracked (snd (restart s graceful w)) s = None).
Proof.
  intros R E. split; [apply start_service_no_script; assumption|].
  intros D Hs. rewrite restart_eq.
  set (w0 := emit (Printed (MsgRestarting s)) w).
  assert (Hs0 : forall pid pr, tracked w0 s = Some pid -> procs w0 pid = Some pr ->
                               may_signal pr = true).
  { intros pid pr T0 P0. apply (Hs pid pr); [|exact P0].
    unfold tracked in *. now rewrite (stored_same_file w w0 eq_refl) in T0. }
  destruct (stop_service_untracks w0 s graceful D Hs0) as (_ & U1 & _ & S1 & _).
  set (w1 := snd (stop_service s graceful w0)) in *.
  set (w2 := snd (time_sleep 1 w1)).
  assert (E2 : server_path_exists s w2 = false).
  { unfold server_path_exists in *. change (scripts w2) with (scripts w1).
    rewrite S1. exact E. }
  rewrite (start_service_no_script w2 s R E2). cbn [fst snd].
  split; [reflexivity|]. unfold tracked.
  rewrite (stored_same_file w1 (emit (Printed (MsgScriptNotFound s)) w2) eq_refl).
  exact U1.
Qed.

Lemma missing_script_start_and_restart_witness :
  let w := with_scripts [] (sample (Holds [("jira", 10)]) [(10, server)]) in
  fst (start_service "jira" w) = false
  /\ tracked (snd (start_service "jira" w)) "jira" = Some 10
  /\ fst (restart "jira" false w) = false
  /\ tracked (snd (restart "jira" false w)) "jira" = None.
Proof.
  cbv zeta.
  destruct (missing_script_start_and_restart
              (with_scripts [] (sample (Holds [("jira", 10)]) [(10, server)]))
              "jira" false eq_refl eq_refl) as (E & R).
  destruct R as (R1 & R2); [reflexivity| |].
  { intros pid pr T P. vm_compute in T. injection T as <-.
    vm_compute in P. injection P as <-. reflexivity. }
  rewrite E. split; [reflexivity|]. split; [reflexivity|]. split; assumption.
Defined.

Section StartStopFacts.

Lemma get_del_other k k' d : k <> k' -> get k (del k' d) = get k d.
Proof.
  intros Hne. induction d as [|[k0 v0] d IH]; simpl; [reflexivity|].
  destruct (String.eqb k' k0) eqn:E.
  - apply String.eqb_eq in E; subst.
    destruct (String.eqb k k0) eqn:E'; [|reflexivity].
    apply String.eqb_eq in E'. contradiction.
  - simpl. rewrite IH. reflexivity.
Qed.

Lemma set_same k v d : get k d = Some v -> set k v d = d.
Proof.
  induction d as [|[k' v'] d IH]; simpl; [discriminate|].
  destruct (String.eqb k k') eqn:E.
  - apply String.eqb_eq in E. subst. now intros [= ->].
  - intros H. now rewrite IH.
Qed.

(** The forceful [try] block: one signal, then the save. *)
Lemma stop_try_forceful service pid pids w w2 :
  os_kill pid SIGTERM w = (inr tt, w2) ->
  stop_try service false pid pids w
  = (inr true,
     emit (Printed (MsgStopped false service pid)) (snd (save_pids pids w2))).
Proof.
  intros K. unfold stop_try, bindT at 1. rewrite K.
  unfold bindT, lift, ret, print. simpl.
  destruct (save_pids pids w2) as [[] w5]. reflexivity.
Qed.

Lemma os_kill_fields pid sig w w2 :
  os_kill pid sig w = (inr tt, w2) ->
  w2 = emit (Signalled pid sig) (with_procs (deliver pid sig (procs w)) w).
Proof.
  unfold os_kill. destruct (procs w pid) as [pr|]; [|discriminate].
  destruct (may_signal pr); [|discriminate]. now intros [= <-].
Qed.

(** The [try] block either raises at its first statement, in the world it
    started in, or runs to its end through the save. *)
Lemma stop_try_cases s (graceful : bool) pid d w :
  (exists e, stop_try s graceful pid d w = (inl e, w))
  \/ (exists wk,
        stop_try s graceful pid d w
        = (inr true, emit (Printed (MsgStopped graceful s pid)) (snd (save_pids d wk)))
        /\ disk wk = disk w /\ pid_file wk = pid_file w).
Proof.
  destruct (os_kill pid (if graceful then SIGHUP else SIGTERM) w)
    as [[e|[]] w2] eqn:K.
  - left. exists e. eapply stop_try_raises, K.
  - right. destruct graceful.
    + pose proof (os_kill_fields _ _ _ _ K) as E2.
      destruct (alive (snd (time_sleep 2 w2)) pid) eqn:A.
      * rewrite (stop_try_escalates s pid d w w2 K A). eexists.
        split; [reflexivity|]. subst w2. split; reflexivity.
      * rewrite (stop_try_drained s pid d w w2 K A). eexists.
        split; [reflexivity|]. subst w2. split; reflexivity.
    + rewrite (stop_try_forceful s pid d w w2 K). eexists.
      split; [reflexivity|]. rewrite (os_kill_fields _ _ _ _ K). split; reflexivity.
Qed.

(** A launch that reports success has spawned a child that outlived the
    grace interval. *)
Lemma launch_success s pids w :
  fst (launch s pids w) = true ->
  exists proc w1,
    popen s (emit (Printed (MsgStarting s)) w) = (inr proc, w1)
    /\ alive (snd (time_sleep 1 w1)) (handle_pid proc) = true.
Proof.
  destruct (popen s (emit (Printed (MsgStarting s)) w)) as [[e|proc] w1] eqn:P.
  - unfold launch, bind at 1, print at 1. unfold bind at 1. rewrite P.
    unfold bind, print, ret. simpl. discriminate.
  - destruct (alive (snd (time_sleep 1 w1)) (handle_pid proc)) eqn:A.
    + intros _. exists proc, w1. auto.
    + rewrite (launch_dies s pids w proc w1 P A). simpl. discriminate.
Qed.

(** The launch when Popen raises. *)
Lemma launch_raises s pids w e w1 :
  popen s (emit (Printed (MsgStarting s)) w) = (inl e, w1) ->
  launch s pids w
  = (false, emit (Printed (MsgStartException s e)) (emit (Printed (MsgStarting s)) w)).
Proof.
  intros P. unfold launch, bind at 1, print at 1. unfold bind at 1. rewrite P.
  unfold bind, print, ret. simpl.
  unfold popen in P. simpl in P.
  destruct (popen_error w); [now injection P as _ <-|].
  destruct (pid_supply w); [now injection P as _ <-|discriminate].
Qed.

Lemma save_pids_ok d w :
  disk w = DiskOk -> save_pids d w = (tt, emit (Wrote d) (with_file (Holds d) w)).
Proof. intros D. unfold save_pids. now rewrite D. Qed.

Lemma stop_service_stored w s graceful :
  disk w = DiskOk ->
  stored (snd (stop_service s graceful w))
  = if fst (stop_service s graceful w)
    then del s (fst (cleanup_stale_pids w))
    else fst (cleanup_stale_pids w).
Proof.
  intros D.
  pose proof (cleanup_stored w D) as St.
  destruct (cleanup_spec w) as (Pc & _).
  destruct (cleanup_frame w) as (Dc & _).
  assert (N : NoDup (keys (fst (cleanup_stale_pids w))))
    by (rewrite Pc; apply live_entries_nodup).
  destruct (get s (fst (cleanup_stale_pids w))) as [pid|] eqn:G.
  - unfold stop_service, bind.
    destruct (cleanup_stale_pids w) as [pids wc]. cbn [fst snd] in *.
    unfold stop_with. rewrite G. unfold bind.
    destruct (stop_try_cases s graceful pid (del s pids) wc)
      as [[e E]|(wk & E & Dk & Fk)]; rewrite E.
    + destruct e; unfold print, ret.
      * rewrite save_pids_ok by (simpl; congruence). cbn [fst snd].
        apply stored_holds; [apply del_nodup, N|reflexivity].
      * cbn [fst snd]. rewrite (stored_same_file wc (emit _ _) eq_refl). exact St.
    + rewrite save_pids_ok by congruence. cbn [fst snd].
      apply stored_holds; [apply del_nodup, N|reflexivity].
  - rewrite (stop_service_no_record w s graceful G). cbn [fst snd].
    rewrite (stored_same_file (snd (cleanup_stale_pids w)) (emit _ _) eq_refl).
    rewrite St. symmetry. apply del_absent, G.
Qed.

End StartStopFacts.

(** X6.  On a working disk, a start that reports success leaves the
    service tracked with the pid of a process that is alive, and the store
    holding the mapping the cleanup returned with that one record set:
    every other live record is kept as it was, every stale one is gone. *)
Theorem start_service_success (w : World) (s : string) :
  disk w = DiskOk ->
  fst (start_service s w) = true ->
  let w' := snd (start_service s w) in
  exists pid,
    tracked w' s = Some pid
    /\ alive w' pid = true
    /\ stored w' = set s pid (fst (cleanup_stale_pids w)).
Proof.
  intros D R. cbv zeta.
  destruct (fst (validate_service s w)) eqn:V;
    [|rewrite (start_service_invalid w s V) in R; discriminate].
  pose proof (cleanup_stored w D) as St.
  destruct (cleanup_spec w) as (Pc & Q & Pr & _).
  destruct (cleanup_frame w) as (Dc & _).
  assert (N : NoDup (keys (fst (cleanup_stale_pids w))))
    by (rewrite Pc; apply live_entries_nodup).
  destruct (get s (fst (cleanup_stale_pids w))) as [pid|] eqn:G.
  - assert (E : start_service s w
                = (true, emit (Printed (MsgAlreadyRunning s pid))
                           (snd (cleanup_stale_pids w)))).
    { unfold start_service, bind at 1. rewrite (validate_service_true w s V).
      simpl. unfold bind at 1.
      pose proof (start_with_live w s pid G) as L.
      destruct (cleanup_stale_pids w) as [pids wc]. exact L. }
    rewrite E. cbn [fst snd]. exists pid.
    assert (S' : stored (emit (Printed (MsgAlreadyRunning s pid))
                           (snd (cleanup_stale_pids w)))
                 = fst (cleanup_stale_pids w)).
    { rewrite (stored_same_file (snd (cleanup_stale_pids w)) (emit _ _) eq_refl).
      exact St. }
    unfold tracked. rewrite S'. split; [exact G|]. split.
    + unfold alive. simpl. rewrite Pr. apply (proj1 (Q s pid) G).
    + symmetry. apply set_same, G.
  - rewrite (start_service_launches w s V G) in R |- *.
    destruct (launch_success _ _ _ R) as (proc & w1 & P & A).
    rewrite (launch_survives s _ _ proc w1 P A). cbn [fst snd].
    destruct (popen_fields _ _ _ _ P) as (_ & D1 & _).
    exists (handle_pid proc).
    assert (F : pid_file (emit (Printed (MsgStarted s (handle_pid proc)))
                    (snd (save_pids (set s (handle_pid proc)
                                       (fst (cleanup_stale_pids w)))
                            (snd (time_sleep 1 w1)))))
                = Holds (set s (handle_pid proc) (fst (cleanup_stale_pids w)))).
    { unfold save_pids. simpl. simpl in D1. rewrite D1, Dc, D. reflexivity. }
    assert (S' : stored (emit (Printed (MsgStarted s (handle_pid proc)))
                    (snd (save_pids (set s (handle_pid proc)
                                       (fst (cleanup_stale_pids w)))
                            (snd (time_sleep 1 w1)))))
                 = set s (handle_pid proc) (fst (cleanup_stale_pids w))).
    { apply stored_holds; [apply set_nodup, N|exact F]. }
    unfold tracked. rewrite S'. split; [apply get_set_same|]. split; [|reflexivity].
    destruct (save_pids_fields (set s (handle_pid proc) (fst (cleanup_stale_pids w)))
                (snd (time_sleep 1 w1))) as (_ & _ & _ & Ps & _).
    unfold alive in *. simpl. simpl in Ps. rewrite Ps. exact A.
Qed.

Lemma start_service_success_witness :
  let w := sample (Holds [("linear", 12); ("observe", 13)]) [(13, server)] in
  let w' := snd (start_service "jira" w) in
  fst (start_service "jira" w) = true
  /\ exists pid, tracked w' "jira" = Some pid /\ alive w' pid = true
                 /\ stored w' = set "jira" pid [("observe", 13)].
Proof.
  cbv zeta. split; [reflexivity|].
  exact (start_service_success
           (sample (Holds [("linear", 12); ("observe", 13)]) [(13, server)])
           "jira" eq_refl eq_refl).
Defined.

(** X7.  On a working disk, the store after a stop is the mapping the
    cleanup returned, without the record of the service when the stop
    reports success, and with it when the stop reports failure; in both
    cases the record of every other service is what the cleanup kept. *)
Theorem stop_service_store (w : World) (s : string) (graceful : bool) :
  disk w = DiskOk ->
  let pids := fst (cleanup_stale_pids w) in
  let r := stop_service s graceful w in
  stored (snd r) = (if fst r then del s pids else pids)
  /\ forall s', s' <> s -> tracked (snd r) s' = get s' pids.
Proof.
  intros D. cbv zeta.
  pose proof (cleanup_stored w D) as St.
  destruct (cleanup_spec w) as (Pc & _).
  destruct (cleanup_frame w) as (Dc & _).
  assert (N : NoDup (keys (fst (cleanup_stale_pids w))))
    by (rewrite Pc; apply live_entries_nodup).
  pose proof (stop_service_stored w s graceful D) as A.
  split; [exact A|]. intros s' Hne. unfold tracked. rewrite A.
  destruct (fst (stop_service s graceful w)); [|reflexivity].
  apply get_del_other, Hne.
Qed.

Lemma stop_service_store_witness :
  let w := sample (Holds [("jira", 10); ("linear", 12); ("observe", 13)])
                  [(10, server); (13, server)] in
  fst (stop_service "jira" true w) = true
  /\ stored (snd (stop_service "jira" true w)) = [("observe", 13)]
  /\ tracked (snd (stop_service "jira" true w)) "observe" = Some 13.
Proof.
  cbv zeta.
  destruct (stop_service_store
              (sample (Holds [("jira", 10); ("linear", 12); ("observe", 13)])
                      [(10, server); (13, server)]) "jira" true eq_refl)
    as (A & B).
  split; [reflexivity|]. split; [rewrite A; reflexivity|].
  rewrite B by discriminate. reflexivity.
Defined.

(** X8.  A forceful stop of a tracked service does not wait: when
    [os.kill] delivers SIGTERM it is the only signal of the stop, the
    process table is the one the delivery left (no time has passed) and
    the stop reports success; when [os.kill] raises, no signal was sent
    and the process table is as it was. *)
Theorem forceful_stop_single_signal (w : World) (s : string) (pid : Z) :
  get s (fst (cleanup_stale_pids w)) = Some pid ->
  let r := stop_service s false w in
  match os_kill pid SIGTERM (snd (cleanup_stale_pids w)) with
  | (inr _, _) =>
      fst r = true
      /\ signals (snd r) = signals w ++ [Signalled pid SIGTERM]
      /\ procs (snd r) = deliver pid SIGTERM (procs w)
  | (inl _, _) => signals (snd r) = signals w /\ procs (snd r) = procs w
  end.
Proof.
  intros G. cbv zeta. unfold stop_service, bind.
  pose proof (cleanup_frame w) as (_ & _ & _ & Pr & _ & _ & Sc).
  destruct (cleanup_stale_pids w) as [pids wc] eqn:C. cbn [fst snd] in G, Sc, Pr |- *.
  unfold stop_with. rewrite G. unfold bind.
  destruct (os_kill pid SIGTERM wc) as [[e|[]] w2] eqn:K.
  - rewrite (stop_try_raises s false pid (del s pids) wc e w2 K).
    destruct e; unfold print, ret.
    + destruct (save_pids_fields (del s pids)
                  (emit (Printed (MsgPidNotFound s pid)) wc))
        as (_ & _ & _ & P2 & _ & _ & S2).
      destruct (save_pids (del s pids) _) as [[] w5].
      simpl in S2, P2 |- *. rewrite S2, P2, signals_emit. simpl.
      rewrite app_nil_r. auto.
    + cbn [fst snd]. rewrite signals_emit. simpl. rewrite app_nil_r. auto.
  - rewrite (stop_try_forceful s pid (del s pids) wc w2 K).
    unfold ret. cbn [fst snd]. split; [reflexivity|].
    destruct (save_pids_fields (del s pids) w2) as (_ & _ & _ & P2 & _ & _ & S2).
    rewrite signals_emit. simpl. rewrite app_nil_r, S2.
    rewrite (os_kill_signals pid SIGTERM wc w2 K), Sc. split; [reflexivity|].
    change (procs (emit (Printed (MsgStopped false s pid))
                     (snd (save_pids (del s pids) w2))))
      with (procs (snd (save_pids (del s pids) w2))).
    rewrite P2, (os_kill_fields _ _ _ _ K). simpl. now rewrite Pr.
Qed.

Lemma forceful_stop_single_signal_witness :
  let w := sample (Holds [("jira", 10)]) [(10, stubborn)] in
  let r := stop_service "jira" false w in
  fst r = true
  /\ signals (snd r) = [Signalled 10 SIGTERM]
  /\ alive (snd r) 10 = false.
Proof.
  cbv zeta.
  pose proof (forceful_stop_single_signal
                (sample (Holds [("jira", 10)]) [(10, stubborn)]) "jira" 10 eq_refl)
    as H.
  cbv zeta in H. destruct H as (R & S & _).
  split; [exact R|]. split; [exact S|reflexivity].
Defined.

(** X9.  When [subprocess.Popen] raises, the start of a valid service with
    no live record reports failure at once: it prints the exception and
    does nothing else after the cleanup, so no process is started, no pid
    is taken, no time passes and the PID file is not written. *)
Theorem start_service_popen_raises
        (w : World) (s : string) (e : string) (w1 : World) :
  fst (validate_service s w) = true ->
  get s (fst (cleanup_stale_pids w)) = None ->
  popen s (emit (Printed (MsgStarting s)) (snd (cleanup_stale_pids w))) = (inl e, w1) ->
  let wc := snd (cleanup_stale_pids w) in
  start_service s w
  = (false, emit (Printed (MsgStartException s e)) (emit (Printed (MsgStarting s)) wc))
  /\ procs (snd (start_service s w)) = procs w
  /\ pid_supply (snd (start_service s w)) = pid_supply w
  /\ pid_file (snd (start_service s w)) = pid_file wc
  /\ writes (snd (start_service s w)) = writes wc.
Proof.
  intros V G P. cbv zeta.
  rewrite (start_service_launches w s V G), (launch_raises s _ _ e w1 P).
  cbn [fst snd]. destruct (cleanup_frame w) as (_ & _ & _ & Pr & _ & Y & _).
  split; [reflexivity|]. split; [exact Pr|]. split; [exact Y|].
  split; [reflexivity|]. rewrite !writes_emit. simpl. now rewrite !app_nil_r.
Qed.

Lemma start_service_popen_raises_witness :
  let w := with_supply [] (sample Missing []) in
  fst (validate_service "jira" w) = true
  /\ fst (start_service "jira" w) = false
  /\ trace (snd (start_service "jira" w))
     = [Printed (MsgStarting "jira");
        Printed (MsgStartException "jira" "Resource temporarily unavailable")]
  /\ pid_file (snd (start_service "jira" w)) = Missing.
Proof.
  cbv zeta.
  destruct (start_service_popen_raises
              (with_supply [] (sample Missing [])) "jira"
              "Resource temporarily unavailable"
              (emit (Printed (MsgStarting "jira"))
                 (snd (cleanup_stale_pids (with_supply [] (sample Missing [])))))
              eq_refl eq_refl eq_refl) as (E & _ & _ & F & _).
  rewrite E. repeat split.
Defined.

(** ** What the operations keep

    A property of the world that printing, saving and sleeping keep is
    kept by the cleanup and by status; if signalling keeps it too, by the
    stop operations; if spawning keeps it, by the start operations. *)

Section Keeps.

Variable P : World -> Prop.

Hypothesis P_print : forall m, keeps P (print m).
Hypothesis P_save : forall d, keeps P (save_pids d).
Hypothesis P_sleep : forall n, keeps P (time_sleep n).

Lemma keeps_ret {A} (a : A) : keeps P (ret a).
Proof. intros w H. exact H. Qed.

Lemma keeps_bind {A B} (m : M A) (f : A -> M B) :
  keeps P m -> (forall a, keeps P (f a)) -> keeps P (bind m f).
Proof.
  intros Hm Hf w H. unfold bind. specialize (Hm w H).
  destruct (m w) as [a w1]. apply Hf, Hm.
Qed.

Lemma keeps_lift {A} (m : M A) : keeps P m -> keeps P (lift m).
Proof.
  intros Hm w H. unfold lift. specialize (Hm w H).
  destruct (m w) as [a w1]. exact Hm.
Qed.

Lemma keeps_bindT {A B} (m : T A) (f : A -> T B) :
  keeps P m -> (forall a, keeps P (f a)) -> keeps P (bindT m f).
Proof.
  intros Hm Hf w H. unfold bindT. specialize (Hm w H).
  destruct (m w) as [[e|a] w1]; [exact Hm|apply Hf, Hm].
Qed.

Lemma keeps_load_pids : keeps P load_pids.
Proof.
  intros w H. unfold load_pids.
  destruct (pid_file w); simpl; try exact H;
    apply (P_print MsgCorruptedPidFile w H).
Qed.

Lemma keeps_is_process_running pid : keeps P (is_process_running pid).
Proof. intros w H. now rewrite is_process_running_alive. Qed.

Lemma keeps_still_running proc : keeps P (still_running proc).
Proof. intros w H. exact H. Qed.

Lemma keeps_path_exists s : keeps P (fun w => (server_path_exists s w, w)).
Proof. intros w H. exact H. Qed.

Create HintDb kp discriminated.

#[local] Hint Resolve keeps_ret keeps_load_pids keeps_is_process_running
  keeps_still_running keeps_path_exists P_print P_save P_sleep : kp.

Ltac kp :=
  repeat first
    [ solve [auto 3 with kp nocore]
    | match goal with
      | |- keeps _ (lift _) => apply keeps_lift
      | |- keeps _ (bind _ _) => apply keeps_bind; [|intros ?]
      | |- keeps _ (bindT _ _) => apply keeps_bindT; [|intros ?]
      | |- keeps _ (if ?b then _ else _) => destruct b
      | |- keeps _ (match ?x with _ => _ end) => destruct x
      end ].

Lemma keeps_validate_service s : keeps P (validate_service s).
Proof. unfold validate_service. kp. Qed.

Lemma keeps_collect_stale items : keeps P (collect_stale items).
Proof. induction items as [|[s pid] items IH]; simpl; kp. Qed.

Lemma keeps_drop_stale stale : forall pids, keeps P (drop_stale stale pids).
Proof. induction stale as [|s stale IH]; simpl; intros pids; kp. Qed.

#[local] Hint Resolve keeps_validate_service keeps_collect_stale
  keeps_drop_stale : kp.

Lemma keeps_cleanup_stale_pids : keeps P cleanup_stale_pids.
Proof. unfold cleanup_stale_pids. kp. Qed.

Lemma keeps_print_rows items : keeps P (print_rows items).
Proof. induction items as [|[s pid] items IH]; simpl; kp. Qed.

Lemma keeps_count_successes op services :
  (forall s, keeps P (op s)) -> forall n, keeps P (count_successes op services n).
Proof.
  intros Hop. induction services as [|s rest IH]; simpl; intros n; kp.
Qed.

#[local] Hint Resolve keeps_cleanup_stale_pids keeps_print_rows
  keeps_count_successes : kp.

Lemma keeps_status : keeps P status.
Proof. unfold status. kp. Qed.

Section Stopping.

Hypothesis P_kill : forall pid sig, keeps P (os_kill pid sig).

Lemma keeps_stop_try s graceful pid pids : keeps P (stop_try s graceful pid pids).
Proof. unfold stop_try. kp. Qed.

#[local] Hint Resolve keeps_stop_try : kp.

Lemma keeps_stop_service s graceful : keeps P (stop_service s graceful).
Proof. unfold stop_service, stop_with. kp. Qed.

#[local] Hint Resolve keeps_stop_service : kp.

Lemma keeps_stop_all graceful : keeps P (stop_all graceful).
Proof. unfold stop_all. kp. Qed.

End Stopping.

Section Starting.

Hypothesis P_popen : forall s, keeps P (popen s).

Lemma keeps_start_service s : keeps P (start_service s).
Proof. unfold start_service, start_with, launch. kp. Qed.

#[local] Hint Resolve keeps_start_service : kp.

Lemma keeps_start_all : keeps P start_all.
Proof. unfold start_all. kp. Qed.

End Starting.

End Keeps.

Section KeepsInstances.

Lemma settle_some pr pr' : settle pr = Some pr' -> pr' = pr.
Proof. unfold settle. destruct (exits_in pr) as [[|k]|]; congruence. Qed.

Lemma deliver_from pid sig ps p pr' :
  deliver pid sig ps p = Some pr' ->
  exists pr, ps p = Some pr /\ may_signal pr' = may_signal pr.
Proof.
  unfold deliver. destruct (Z.eqb p pid).
  - destruct (ps p) as [pr|]; [|discriminate]. intros H.
    apply settle_some in H. subst. exists pr. split; [reflexivity|].
    apply hit_may_signal.
  - intros H. exists pr'. auto.
Qed.

Lemma keeps_signals_print S m : keeps (fun w => signals w = S) (print m).
Proof. intros w H. simpl. rewrite signals_emit. simpl. now rewrite app_nil_r. Qed.

Lemma keeps_signals_save S d : keeps (fun w => signals w = S) (save_pids d).
Proof. intros w H. now rewrite save_pids_signals. Qed.

Lemma keeps_signals_sleep S n : keeps (fun w => signals w = S) (time_sleep n).
Proof. intros w H. simpl. rewrite signals_emit. simpl. now rewrite app_nil_r. Qed.

Lemma keeps_signals_popen S s : keeps (fun w => signals w = S) (popen s).
Proof.
  intros w H. unfold popen. destruct (popen_error w); [exact H|].
  destruct (pid_supply w); [exact H|]. simpl. rewrite signals_emit. simpl.
  now rewrite app_nil_r.
Qed.

Lemma no_new_process_print w0 m : keeps (no_new_process w0) (print m).
Proof. intros w H. exact H. Qed.

Lemma no_new_process_save w0 d : keeps (no_new_process w0) (save_pids d).
Proof.
  intros w [Y A]. destruct (save_pids_fields d w) as (_ & _ & _ & P2 & _ & Y2 & _).
  split; [congruence|]. intros p. unfold alive. rewrite P2. apply A.
Qed.

Lemma no_new_process_sleep w0 n : keeps (no_new_process w0) (time_sleep n).
Proof.
  intros w [Y A]. split; [exact Y|]. intros p H. apply A.
  unfold alive in *. simpl in H. unfold elapse in H.
  destruct (procs w p); [reflexivity|discriminate].
Qed.

Lemma no_new_process_kill w0 pid sig : keeps (no_new_process w0) (os_kill pid sig).
Proof.
  intros w [Y A]. unfold os_kill. destruct (procs w pid) as [pr|] eqn:E; [|now split].
  destruct (may_signal pr); [|now split]. split; [exact Y|].
  intros p H. apply A. unfold alive in *. simpl in H.
  destruct (deliver pid sig (procs w) p) as [pr'|] eqn:Dl; [|discriminate].
  apply deliver_from in Dl as (pr0 & E0 & _). now rewrite E0.
Qed.

Lemma all_signalable_print m : keeps all_signalable (print m).
Proof. intros w H. exact H. Qed.

Lemma all_signalable_save d : keeps all_signalable (save_pids d).
Proof.
  intros w H p pr. destruct (save_pids_fields d w) as (_ & _ & _ & P2 & _).
  rewrite P2. apply H.
Qed.

Lemma all_signalable_sleep n : keeps all_signalable (time_sleep n).
Proof.
  intros w H p pr E. simpl in E. apply elapse_may_signal in E as (pr0 & E0 & M).
  rewrite M. eapply H, E0.
Qed.

Lemma all_signalable_kill pid sig : keeps all_signalable (os_kill pid sig).
Proof.
  intros w H. unfold os_kill. destruct (procs w pid) as [pr|] eqn:E; [|exact H].
  destruct (may_signal pr); [|exact H]. intros p pr' E'. simpl in E'.
  apply deliver_from in E' as (pr0 & E0 & M). rewrite M. eapply H, E0.
Qed.

Lemma disk_ok_stop_service s graceful w :
  disk w = DiskOk -> disk (snd (stop_service s graceful w)) = DiskOk.
Proof.
  apply (keeps_stop_service (fun w => disk w = DiskOk)).
  - intros m w0 H. exact H.
  - intros d w0 H. now rewrite (proj1 (save_pids_fields d w0)).
  - intros n w0 H. exact H.
  - intros pid sig w0 H. unfold os_kill. destruct (procs w0 pid) as [pr|]; [|exact H].
    destruct (may_signal pr); exact H.
Qed.

Lemma keys_del_nodup s d x :
  NoDup (keys d) -> In x (keys (del s d)) -> x <> s /\ In x (keys d).
Proof.
  induction d as [|[k v] d IH]; simpl; intros N H; [contradiction|].
  inversion N as [|? ? Hn Nd]; subst.
  destruct (String.eqb s k) eqn:E.
  - apply String.eqb_eq in E. subst. split; [|auto].
    intros ->. contradiction.
  - simpl in H. destruct H as [<-|H].
    + split; [|auto]. intros ->. rewrite String.eqb_refl in E. discriminate.
    + destruct (IH Nd H). auto.
Qed.

Lemma keys_live_entries w d x : In x (keys (live_entries w d)) -> In x (keys d).
Proof.
  unfold keys, live_entries. intros H.
  apply in_map_iff in H as [kv [<- H]]. apply filter_In in H as [H _].
  apply in_map_iff. exists kv. auto.
Qed.

(** Stopping, one after the other, the services of a list: on a working
    disk, with processes the controller may signal, every stop succeeds
    and no name of the list is left in the store. *)
Lemma stop_each_untracks graceful services : forall w,
  disk w = DiskOk -> all_signalable w ->
  let r := run_each (fun s => stop_service s graceful) services w in
  forallb id (fst r) = true
  /\ forall x, In x (keys (stored (snd r))) ->
               In x (keys (stored w)) /\ ~ In x services.
Proof.
  induction services as [|s rest IH]; intros w D A; cbv zeta.
  - simpl. split; [reflexivity|]. intros x H. auto.
  - simpl. unfold bind.
    assert (Hs : forall pid pr, tracked w s = Some pid -> procs w pid = Some pr ->
                                may_signal pr = true) by (intros pid pr _; apply A).
    destruct (stop_service_untracks w s graceful D Hs) as (R1 & _).
    pose proof (stop_service_stored w s graceful D) as St. rewrite R1 in St.
    pose proof (disk_ok_stop_service s graceful w D) as D1.
    pose proof (keeps_stop_service all_signalable all_signalable_print
                  all_signalable_save all_signalable_sleep all_signalable_kill
                  s graceful w A) as A1.
    destruct (stop_service s graceful w) as [ok w1]. cbn [fst snd] in *. subst ok.
    specialize (IH w1 D1 A1). cbv zeta in IH. destruct IH as [F K].
    destruct (run_each (fun s0 => stop_service s0 graceful) rest w1) as [oks w2].
    cbn [fst snd] in *. unfold ret. cbn [fst snd]. simpl. split; [exact F|].
    intros x Hx. destruct (K x Hx) as [Hin Hnot]. rewrite St in Hin.
    destruct (cleanup_spec w) as (Pc & _).
    apply keys_del_nodup in Hin as [Hne Hin];
      [|rewrite Pc; apply live_entries_nodup].
    rewrite Pc in Hin. apply keys_live_entries in Hin.
    split; [exact Hin|]. intros [->|Hr]; [now apply Hne|contradiction].
Qed.

Lemma rows_emit e w : rows (emit e w) = rows w ++ (if is_row e then [e] else []).
Proof.
  unfold rows. simpl. rewrite filter_app. simpl. destruct (is_row e); reflexivity.
Qed.

Lemma rows_cleanup w : rows (snd (cleanup_stale_pids w)) = rows w.
Proof.
  rewrite cleanup_stale_pids_eq. cbv zeta. cbn [snd].
  assert (L : rows (snd (load_pids w)) = rows w).
  { unfold load_pids. destruct (pid_file w); simpl; rewrite ?rows_emit; simpl;
      rewrite ?app_nil_r; reflexivity. }
  assert (A : forall l w0, rows (announce l w0) = rows w0).
  { induction l as [|s l IH]; simpl; intros w0; [reflexivity|].
    rewrite IH, rows_emit. simpl. now rewrite app_nil_r. }
  destruct (stale_entries w (stored w)) as [|e st]; [exact L|].
  assert (S : forall d w0, rows (snd (save_pids d w0)) = rows w0).
  { intros d w0. unfold save_pids. destruct (disk w0); simpl;
      rewrite ?rows_emit; simpl; rewrite ?app_nil_r; reflexivity. }
  now rewrite S, A.
Qed.

Lemma print_rows_world items : forall w,
  pid_file (snd (print_rows items w)) = pid_file w
  /\ procs (snd (print_rows items w)) = procs w
  /\ rows (snd (print_rows items w)) = rows w ++ map status_row items.
Proof.
  induction items as [|[s pid] items IH]; simpl; intros w.
  - unfold ret. simpl. now rewrite app_nil_r.
  - unfold bind, print.
    destruct (IH (emit (Printed (MsgStatusRow s pid)) w)) as (A & B & C).
    rewrite A, B, C, rows_emit. simpl. rewrite <- app_assoc. auto.
Qed.

(** status is the cleanup followed by printing. *)
Lemma status_world w :
  pid_file (snd (status w)) = pid_file (snd (cleanup_stale_pids w))
  /\ procs (snd (status w)) = procs w
  /\ rows (snd (status w)) = rows w ++ map status_row (fst (cleanup_stale_pids w)).
Proof.
  pose proof (rows_cleanup w) as Rc.
  destruct (cleanup_frame w) as (_ & _ & _ & Pr & _).
  remember (status w) as r eqn:E. unfold status in E. unfold bind at 1 in E.
  destruct (cleanup_stale_pids w) as [pids wc]. cbn [fst snd] in *.
  unfold bind at 1, print at 1 in E.
  destruct pids as [|e pids].
  - unfold bind, print in E. subst r. cbn [fst snd]. rewrite !rows_emit. simpl.
    rewrite !app_nil_r. auto.
  - unfold bind at 1, print at 1 in E. unfold bind at 1 in E.
    destruct (print_rows_world (e :: pids)
                (emit (Printed MsgRunningHeader) (emit (Printed MsgStatusHeader) wc)))
      as (A & B & C).
    destruct (print_rows (e :: pids) _) as [[] wr]. cbn [fst snd] in *.
    rewrite !rows_emit in C. simpl in C. rewrite !app_nil_r in C.
    destruct (filter _ SERVICES); unfold ret, print in E; subst r; cbn [fst snd];
      rewrite ?rows_emit; simpl; rewrite ?app_nil_r.
    all: simpl in A, B; split; [exact A|split; [congruence|congruence]].
Qed.

End KeepsInstances.

(** X10.  On a working disk, status leaves in the store exactly the
    records whose process is alive: the store after status is the loaded
    mapping without its stale entries, every service still tracked is
    tracked with the pid of a running process, and status itself sends no
    signal and leaves the processes as they are. *)
Theorem status_reconciles (w : World) :
  disk w = DiskOk ->
  let w' := snd (status w) in
  stored w' = live_entries w (stored w)
  /\ (forall s pid, tracked w' s = Some pid -> alive w' pid = true)
  /\ procs w' = procs w
  /\ signals w' = signals w.
Proof.
  intros D. cbv zeta.
  destruct (status_world w) as (F & Pr & _).
  destruct (cleanup_spec w) as (Pc & Q & _).
  assert (S : stored (snd (status w)) = live_entries w (stored w)).
  { rewrite (stored_same_file _ _ F), (cleanup_stored w D). exact Pc. }
  split; [exact S|]. split; [|split; [exact Pr|]].
  - intros s pid T. unfold tracked in T. rewrite S, <- Pc in T.
    apply Q in T as [_ A]. unfold alive in *. now rewrite Pr.
  - apply (keeps_status (fun w0 => signals w0 = signals w)
             (keeps_signals_print (signals w)) (keeps_signals_save (signals w))).
    reflexivity.
Qed.

Lemma status_reconciles_witness :
  let w := sample (Holds [("jira", 10); ("linear", 12)]) [(10, server)] in
  stored (snd (status w)) = [("jira", 10)]
  /\ pid_file (snd (status w)) = Holds [("jira", 10)]
  /\ signals (snd (status w)) = [].
Proof.
  cbv zeta.
  destruct (status_reconciles
              (sample (Holds [("jira", 10); ("linear", 12)]) [(10, server)]) eq_refl)
    as (S & _ & _ & G).
  split; [rewrite S; reflexivity|]. split; [reflexivity|exact G].
Defined.

(** X11.  status prints one row per record with a live process, in the
    order of the store and with the recorded pid, and no row for a stale
    record; with no live record it prints no row at all. *)
Theorem status_rows (w : World) :
  rows (snd (status w)) = rows w ++ map status_row (live_entries w (stored w)).
Proof.
  destruct (status_world w) as (_ & _ & R).
  destruct (cleanup_spec w) as (Pc & _). now rewrite R, Pc.
Qed.

(** X12.  Starting never signals a process: start_service and start_all
    leave the list of signals sent as it was. *)
Theorem start_sends_no_signal (w : World) (s : string) :
  signals (snd (start_service s w)) = signals w
  /\ signals (snd (start_all w)) = signals w.
Proof.
  split.
  - apply (keeps_start_service (fun w0 => signals w0 = signals w)
             (keeps_signals_print _) (keeps_signals_save _)
             (keeps_signals_sleep _) (keeps_signals_popen _)).
    reflexivity.
  - apply (keeps_start_all (fun w0 => signals w0 = signals w)
             (keeps_signals_print _) (keeps_signals_save _)
             (keeps_signals_sleep _) (keeps_signals_popen _)).
    reflexivity.
Qed.

(** X13.  Stopping and reporting never start a process: after
    stop_service, stop_all or status no pid has been taken from the system
    and every process that runs was running before. *)
Theorem stopping_starts_no_process (w : World) (s : string) (graceful : bool) :
  no_new_process w (snd (stop_service s graceful w))
  /\ no_new_process w (snd (stop_all graceful w))
  /\ no_new_process w (snd (status w)).
Proof.
  assert (R : no_new_process w w) by (split; auto).
  split; [|split].
  - apply (keeps_stop_service (no_new_process w) (no_new_process_print w)
             (no_new_process_save w) (no_new_process_sleep w)
             (no_new_process_kill w)), R.
  - apply (keeps_stop_all (no_new_process w) (no_new_process_print w)
             (no_new_process_save w) (no_new_process_sleep w)
             (no_new_process_kill w)), R.
  - apply (keeps_status (no_new_process w) (no_new_process_print w)
             (no_new_process_save w)), R.
Qed.

(** X14.  On a working disk, when every running process is one the
    controller may signal, stop_all reports success and leaves the store
    empty, whatever the processes do with the signals. *)
Theorem stop_all_empties (w : World) (graceful : bool) :
  disk w = DiskOk ->
  all_signalable w ->
  fst (stop_all graceful w) = true
  /\ stored (snd (stop_all graceful w)) = [].
Proof.
  intros D A. rewrite stop_all_eq. cbv zeta. cbn [fst snd].
  pose proof (cleanup_stored w D) as St.
  destruct (cleanup_frame w) as (Dc & _ & _ & Pr & _).
  remember (fst (cleanup_stale_pids w)) as pids eqn:Ep.
  remember (snd (cleanup_stale_pids w)) as wc eqn:Ew.
  remember (emit (Printed (MsgStoppingAll (keys pids))) wc) as w0 eqn:E0.
  assert (D0 : disk w0 = DiskOk) by (subst w0; simpl; congruence).
  assert (A0 : all_signalable w0).
  { intros p pr E. subst w0. simpl in E. rewrite Pr in E. eapply A, E. }
  assert (S0 : stored w0 = pids).
  { subst w0. rewrite (stored_same_file wc (emit _ wc) eq_refl). exact St. }
  destruct (stop_each_untracks graceful (keys pids) w0 D0 A0) as [F K].
  split; [exact F|].
  destruct pids as [|e pids'].
  - rewrite (stored_same_file wc (emit (Printed MsgNoServicesRunning) wc) eq_refl).
    exact St.
  - set (r := run_each (fun s => stop_service s graceful) (keys (e :: pids')) w0) in *.
    rewrite (stored_same_file (snd r) (emit _ (snd r)) eq_refl).
    destruct (stored (snd r)) as [|[k v] rest]; [reflexivity|].
    exfalso. destruct (K k) as [Hin Hnot]; [left; reflexivity|].
    rewrite S0 in Hin. contradiction.
Qed.

Lemma stop_all_empties_witness :
  let w := sample (Holds [("jira", 10); ("linear", 12); ("slack", 13)])
                  [(10, stubborn); (13, server)] in
  fst (stop_all true w) = true
  /\ stored (snd (stop_all true w)) = [].
Proof.
  cbv zeta.
  apply (stop_all_empties
           (sample (Holds [("jira", 10); ("linear", 12); ("slack", 13)])
                   [(10, stubborn); (13, server)]) true).
  - reflexivity.
  - intros p pr E.
    change (table [(10, stubborn); (13, server)] p = Some pr) in E.
    unfold table in E.
    destruct (Z.eqb p 10); [injection E as <-; reflexivity|].
    destruct (Z.eqb p 13); [injection E as <-; reflexivity|discriminate].
Defined.

(** X15.  A command line that names no operation leaves everything as it
    is and exits with code 1: with no command main prints the usage; with
    a command that is none of start, stop, restart, status and graceful it
    prints the command and the usage; with start, stop, restart or
    graceful and no target it asks for one.  In each case the PID file is
    not read or written, no signal is sent and no process is started. *)
Theorem main_usage_errors (lower : string -> string) (argv : list string) (w : World) :
  ((length argv < 2)%nat -> main lower argv w = (1, emit (Printed MsgUsage) w))
  /\ (forall prog cmd rest,
        argv = prog :: cmd :: rest ->
        in_list (lower cmd) ["start"; "stop"; "restart"; "status"; "graceful"] = false ->
        main lower argv w
        = (1, emit (Printed MsgUsage) (emit (Printed (MsgUnknownCommand (lower cmd))) w)))
  /\ (forall prog cmd,
        argv = [prog; cmd] ->
        In (lower cmd) ["start"; "stop"; "restart"; "graceful"] ->
        main lower argv w = (1, emit (Printed (MsgSpecify (lower cmd))) w)).
Proof.
  split; [|split].
  - intros L. destruct argv as [|a [|b argv]]; simpl in L; try reflexivity. lia.
  - intros prog cmd rest -> H. simpl in H. unfold main, main_route.
    repeat match type of H with
           | (?b || _)%bool = false =>
               apply orb_false_elim in H; destruct H as [E H]; rewrite E; clear E
           end.
    reflexivity.
  - intros prog cmd -> H. unfold main. simpl in H.
    destruct H as [<-|[<-|[<-|[<-|[]]]]]; reflexivity.
Qed.

Lemma main_usage_errors_witness :
  let w := sample (Holds [("jira", 10)]) [(10, server)] in
  main (fun s => s) ["tectonmcpctl"] w = (1, emit (Printed MsgUsage) w)
  /\ main (fun s => s) ["tectonmcpctl"; "stop"] w
     = (1, emit (Printed (MsgSpecify "stop")) w).
Proof.
  cbv zeta.
  destruct (main_usage_errors (fun s => s) ["tectonmcpctl"]
              (sample (Holds [("jira", 10)]) [(10, server)])) as (A & _).
  destruct (main_usage_errors (fun s => s) ["tectonmcpctl"; "stop"]
              (sample (Holds [("jira", 10)]) [(10, server)])) as (_ & _ & C).
  split; [apply A; simpl; lia|].
  apply (C "tectonmcpctl" "stop" eq_refl). simpl. auto.
Defined.

Section NoNewRecord.

Lemma get_del_some k s d v :
  NoDup (keys d) -> get k (del s d) = Some v -> get k d = Some v.
Proof.
  intros N H. destruct (String.eqb k s) eqn:E.
  - apply String.eqb_eq in E. subst. rewrite get_del_same in H by exact N.
    discriminate.
  - rewrite get_del_other in H; [exact H|]. intros ->.
    rewrite String.eqb_refl in E. discriminate.
Qed.

(** A save of a mapping whose records, under the names [keep] selects, are
    records of [w0], in a world whose store has that property too:
    whatever the disk does, the store afterwards has it. *)
Lemma save_no_new_record (keep : string -> bool) d wk w0 :
  NoDup (keys d) ->
  (forall x p, keep x = true -> tracked wk x = Some p -> tracked w0 x = Some p) ->
  (forall x p, keep x = true -> get x d = Some p -> tracked w0 x = Some p) ->
  forall x p, keep x = true ->
              tracked (snd (save_pids d wk)) x = Some p -> tracked w0 x = Some p.
Proof.
  intros N F G x p Kx. unfold tracked at 1, save_pids.
  destruct (disk wk); cbn [snd].
  - rewrite (stored_holds d (emit (Wrote d) (with_file (Holds d) wk)) N eq_refl).
    apply G, Kx.
  - rewrite (stored_same_file wk (emit (Printed MsgSaveFailed) wk) eq_refl).
    apply F, Kx.
  - unfold stored, load_pids. simpl. discriminate.
Qed.

Lemma cleanup_records w x p :
  get x (fst (cleanup_stale_pids w)) = Some p -> tracked w x = Some p.
Proof.
  destruct (cleanup_spec w) as (_ & Q & _). intros H. apply Q in H. apply H.
Qed.

Lemma cleanup_nodup w : NoDup (keys (fst (cleanup_stale_pids w))).
Proof.
  destruct (cleanup_spec w) as (Pc & _). rewrite Pc. apply live_entries_nodup.
Qed.

Lemma tracked_same_file w w' x :
  pid_file w' = pid_file w -> tracked w' x = tracked w x.
Proof. intros F. unfold tracked. now rewrite (stored_same_file w w' F). Qed.

Lemma tracked_emit e w x : tracked (emit e w) x = tracked w x.
Proof. apply tracked_same_file. reflexivity. Qed.

Lemma stop_service_no_new_record w s graceful x p :
  tracked (snd (stop_service s graceful w)) x = Some p -> tracked w x = Some p.
Proof.
  pose proof (cleanup_nodup w) as N.
  pose proof (cleanup_records w) as Rc.
  pose proof (cleanup_creates_no_record w) as Cc.
  destruct (get s (fst (cleanup_stale_pids w))) as [pid|] eqn:G.
  - unfold stop_service, bind.
    destruct (cleanup_stale_pids w) as [pids wc]. cbn [fst snd] in *.
    unfold stop_with. rewrite G. unfold bind.
    assert (Sv : forall wk, pid_file wk = pid_file wc ->
                 tracked (snd (save_pids (del s pids) wk)) x = Some p ->
                 tracked w x = Some p).
    { intros wk Fk H.
      apply (save_no_new_record (fun _ => true) (del s pids) wk w
               (del_nodup s pids N)) with (x := x); [| |reflexivity|exact H].
      - intros y q _ Hy. apply Cc. now rewrite <- (tracked_same_file wc wk y Fk).
      - intros y q _ Hy. apply Rc. eapply get_del_some; eauto. }
    destruct (stop_try_cases s graceful pid (del s pids) wc)
      as [[e E]|(wk & E & Dk & Fk)]; rewrite E.
    + destruct e; unfold print, ret.
      * destruct (save_pids (del s pids) _) as [[] w5] eqn:S5. cbn [fst snd].
        intros H. apply (Sv (emit (Printed (MsgPidNotFound s pid)) wc) eq_refl).
        now rewrite S5.
      * cbn [fst snd]. rewrite tracked_emit. apply Cc.
    + unfold ret. cbn [fst snd]. rewrite tracked_emit. apply (Sv wk Fk).
  - rewrite (stop_service_no_record w s graceful G). cbn [fst snd].
    rewrite tracked_emit. apply Cc.
Qed.

Lemma start_service_no_new_record w s x p :
  x <> s ->
  tracked (snd (start_service s w)) x = Some p -> tracked w x = Some p.
Proof.
  intros Hne.
  pose proof (cleanup_nodup w) as N.
  pose proof (cleanup_records w) as Rc.
  pose proof (cleanup_creates_no_record w) as Cc.
  destruct (fst (validate_service s w)) eqn:V.
  - destruct (get s (fst (cleanup_stale_pids w))) as [pid|] eqn:G.
    + assert (E : start_service s w
                  = (true, emit (Printed (MsgAlreadyRunning s pid))
                             (snd (cleanup_stale_pids w)))).
      { unfold start_service, bind at 1. rewrite (validate_service_true w s V).
        simpl. unfold bind at 1.
        pose proof (start_with_live w s pid G) as L.
        destruct (cleanup_stale_pids w) as [pids wc]. exact L. }
      rewrite E. cbn [fst snd]. rewrite tracked_emit. apply Cc.
    + rewrite (start_service_launches w s V G).
      set (pids := fst (cleanup_stale_pids w)) in *.
      set (wc := snd (cleanup_stale_pids w)) in *.
      destruct (popen s (emit (Printed (MsgStarting s)) wc)) as [[e|proc] w1] eqn:P.
      * rewrite (launch_raises s pids wc e w1 P). cbn [fst snd].
        rewrite !tracked_emit. apply Cc.
      * destruct (popen_fields _ _ _ _ P) as (F1 & _).
        assert (T1 : forall y, tracked (snd (time_sleep 1 w1)) y = tracked wc y).
        { intros y. apply tracked_same_file. exact F1. }
        destruct (alive (snd (time_sleep 1 w1)) (handle_pid proc)) eqn:A.
        -- rewrite (launch_survives s pids wc proc w1 P A). cbn [fst snd].
           rewrite tracked_emit. intros H.
           apply (save_no_new_record (fun y => negb (String.eqb y s))
                    (set s (handle_pid proc) pids) (snd (time_sleep 1 w1)) w
                    (set_nodup s (handle_pid proc) pids N))
             with (x := x); [| | |exact H].
           ++ intros y q _ Hy. apply Cc. now rewrite <- T1.
           ++ intros y q Ky Hy. apply Rc.
              rewrite get_set_other in Hy; [exact Hy|].
              intros ->. rewrite String.eqb_refl in Ky. discriminate.
           ++ destruct (String.eqb x s) eqn:Ex; [|reflexivity].
              apply String.eqb_eq in Ex. contradiction.
        -- rewrite (launch_dies s pids wc proc w1 P A). cbv zeta. cbn [fst snd].
           destruct (nonempty (handle_stderr proc)); rewrite !tracked_emit, T1;
             apply Cc.
  - assert (E : pid_file (snd (start_service s w)) = pid_file w).
    { unfold start_service, validate_service in *.
      destruct (negb (in_list s SERVICES)); [reflexivity|].
      unfold bind, print, ret in *. simpl in *.
      destruct (server_path_exists s w); [discriminate|reflexivity]. }
    now rewrite (tracked_same_file w _ x E).
Qed.

End NoNewRecord.

(** X16.  Stopping and reporting never add a record to the store and never
    change the pid of one, whatever the disk does: a record found in the
    store after stop_service or status was there, with the same pid,
    before. *)
Theorem stop_and_status_add_no_record
        (w : World) (s : string) (graceful : bool) (x : string) (p : Z) :
  (tracked (snd (stop_service s graceful w)) x = Some p -> tracked w x = Some p)
  /\ (tracked (snd (status w)) x = Some p -> tracked w x = Some p).
Proof.
  split; [apply stop_service_no_new_record|].
  destruct (status_world w) as (F & _).
  rewrite (tracked_same_file _ _ x F). apply cleanup_creates_no_record.
Qed.

(** X17.  A start touches no record but its own, whatever the disk does
    and however the start ends: a record of another service found in the
    store after start_service was there, with the same pid, before. *)
Theorem start_service_adds_only_its_record
        (w : World) (s x : string) (p : Z) :
  x <> s ->
  tracked (snd (start_service s w)) x = Some p ->
  tracked w x = Some p.
Proof. intros Hne H. eapply start_service_no_new_record; eauto. Qed.

Lemma start_service_adds_only_its_record_witness :
  let w := with_disk DiskOpenFails (sample (Holds [("observe", 13)]) [(13, server)]) in
  tracked (snd (start_service "jira" w)) "observe" = Some 13
  /\ tracked w "observe" = Some 13.
Proof.
  cbv zeta. split; [reflexivity|].
  apply (start_service_adds_only_its_record
           (with_disk DiskOpenFails (sample (Holds [("observe", 13)]) [(13, server)]))
           "jira" "observe" 13); [discriminate|reflexivity].
Defined.

Lemma stop_and_status_add_no_record_witness :
  let w := with_disk DiskWriteFails
             (sample (Holds [("jira", 10); ("observe", 13)]) [(10, server); (13, server)]) in
  tracked (snd (status w)) "observe" = Some 13
  /\ tracked w "observe" = Some 13
  /\ tracked (snd (stop_service "jira" false w)) "observe" = None.
Proof.
  cbv zeta.
  destruct (stop_and_status_add_no_record
              (with_disk DiskWriteFails
                 (sample (Holds [("jira", 10); ("observe", 13)])
                         [(10, server); (13, server)]))
              "jira" false "observe" 13) as (_ & B).
  split; [reflexivity|]. split; [apply B; reflexivity|reflexivity].
Defined.
